(** * cua::CudaSurface3DBase and its two leaf classes (cudaSurface3D.h)

    A shallow embedding of the surface-memory 3D array wrapper: the base
    class [CudaSurface3DBase<Derived>], the leaves [CudaSurface2DArray<T>]
    and [CudaSurface3D<T>], and the part of the CUDA runtime they call.

    Integers are [Z] with the conversions of the C++ expressions written
    out ([to_size_t], [to_int]); the device is a finite map from array
    handles to reference-counted arrays; host objects live in a finite
    map from addresses to records, so that [this == &other] is a
    comparison of addresses. *)

From Stdlib Require Import ZArith Lia.
From stdpp Require Import base option list gmap.

Local Open Scope Z_scope.

(** [namespace cua] *)
Module cua.

(** ** Machine integers *)

(** [size_t] is 64 bits wide, [int] is 32 bits wide and signed. *)
Definition to_size_t (n : Z) : Z := n mod 2 ^ 64.

Definition to_int (n : Z) : Z := (n + 2 ^ 31) mod 2 ^ 32 - 2 ^ 31.

(** ** Types of the CUDA runtime *)

Record dim3 := Dim3 { dim_x : Z; dim_y : Z; dim_z : Z }.

(** A stream is a pointer; [0] is the default stream. *)
Definition cudaStream_t := Z.

Inductive cudaSurfaceBoundaryMode :=
| cudaBoundaryModeZero
| cudaBoundaryModeClamp
| cudaBoundaryModeTrap.

Inductive cudaError :=
| cudaSuccess
| cudaErrorInvalidValue
| cudaErrorMemoryAllocation.

#[global] Instance dim3_eq_dec : EqDecision dim3.
Proof. solve_decision. Defined.

#[global] Instance cudaSurfaceBoundaryMode_eq_dec :
  EqDecision cudaSurfaceBoundaryMode.
Proof. solve_decision. Defined.

#[global] Instance cudaError_eq_dec : EqDecision cudaError.
Proof. solve_decision. Defined.

(** ** Element types

    [CudaArrayTraits<Derived>::Scalar]: what the wrapper needs of [T] is
    [sizeof(T)] and the all-zero value that a zero-mode read falls back
    to. *)
Class Scalar (T : Type) := {
  sizeof : Z;
  zero : T;
  sizeof_pos : 0 < sizeof
}.

(** The two leaf classes, as the [Derived] parameter of the base class. *)
Inductive Derived := CudaSurface2DArray | CudaSurface3D.

(** [CudaArrayTraits<Derived>::IS_LAYERED] *)
Definition IS_LAYERED (D : Derived) : bool :=
  match D with
  | CudaSurface2DArray => true
  | CudaSurface3D => false
  end.

(** ** Device arrays and the surface intrinsics *)

(** A [cudaArray]: extents in elements, the layered flag it was
    allocated with, and its elements in x-fastest order. *)
Record cudaArray (T : Type) := CudaArray {
  extent_w : Z;
  extent_h : Z;
  extent_d : Z;
  layered : bool;
  texels : list T
}.
Arguments CudaArray {T}.
Arguments extent_w {T}.
Arguments extent_h {T}.
Arguments extent_d {T}.
Arguments layered {T}.
Arguments texels {T}.

Definition with_texels {T} (arr : cudaArray T) (l : list T) : cudaArray T :=
  CudaArray (extent_w arr) (extent_h arr) (extent_d arr) (layered arr) l.

(** An allocation with its reference count (the state behind
    [CudaSharedSurfaceObject]). *)
Record slot (T : Type) := Slot {
  refcount : nat;
  array : cudaArray T
}.
Arguments Slot {T}.
Arguments refcount {T}.
Arguments array {T}.

Record device (T : Type) := Device {
  free_bytes : Z;
  surfaces : gmap positive (slot T)
}.
Arguments Device {T}.
Arguments free_bytes {T}.
Arguments surfaces {T}.

Section Runtime.
Context {T : Type} `{Scalar T}.

(** The surface intrinsics address x in bytes and y, z in elements. *)
Definition in_range (arr : cudaArray T) (xb y z : Z) : bool :=
  (0 <=? xb) && (xb <? sizeof * extent_w arr)
  && (0 <=? y) && (y <? extent_h arr)
  && (0 <=? z) && (z <? extent_d arr).

Definition texel_index (arr : cudaArray T) (xb y z : Z) : nat :=
  Z.to_nat ((z * extent_h arr + y) * extent_w arr + xb / sizeof).

Definition clamp (lo hi v : Z) : Z := Z.max lo (Z.min hi v).

Definition clamped_index (arr : cudaArray T) (xb y z : Z) : nat :=
  texel_index arr
    (clamp 0 (sizeof * extent_w arr - sizeof) xb)
    (clamp 0 (extent_h arr - 1) y)
    (clamp 0 (extent_d arr - 1) z).

(** Read with a boundary mode: zero mode yields zero out of range,
    clamp mode reads the nearest element, trap mode makes the kernel
    fail. *)
Definition surf_read (arr : cudaArray T) (xb y z : Z)
    (mode : cudaSurfaceBoundaryMode) : option T :=
  if in_range arr xb y z then texels arr !! texel_index arr xb y z
  else match mode with
       | cudaBoundaryModeZero => Some zero
       | cudaBoundaryModeClamp => texels arr !! clamped_index arr xb y z
       | cudaBoundaryModeTrap => None
       end.

(** Write with a boundary mode: zero mode drops the write out of
    range. *)
Definition surf_write (v : T) (arr : cudaArray T) (xb y z : Z)
    (mode : cudaSurfaceBoundaryMode) : option (cudaArray T) :=
  if in_range arr xb y z
  then Some (with_texels arr (<[texel_index arr xb y z := v]> (texels arr)))
  else match mode with
       | cudaBoundaryModeZero => Some arr
       | cudaBoundaryModeClamp =>
           Some (with_texels arr
                   (<[clamped_index arr xb y z := v]> (texels arr)))
       | cudaBoundaryModeTrap => None
       end.

Definition update_array (dev : device T) (h : positive)
    (arr : cudaArray T) (s : slot T) : device T :=
  Device (free_bytes dev) (<[h := Slot (refcount s) arr]> (surfaces dev)).

(** [T surf3Dread<T>(cudaSurfaceObject_t surfObj, int x, int y, int z,
    cudaSurfaceBoundaryMode boundaryMode)]: [x] is a byte offset; the
    surface must be bound to a non-layered array. *)
Definition surf3Dread (dev : device T) (surfObj : positive)
    (x y z : Z) (mode : cudaSurfaceBoundaryMode) : option T :=
  s ← surfaces dev !! surfObj;
  if layered (array s) then None else surf_read (array s) x y z mode.

(** [surf3Dwrite(v, surfObj, x, y, z, boundaryMode)] *)
Definition surf3Dwrite (v : T) (dev : device T) (surfObj : positive)
    (x y z : Z) (mode : cudaSurfaceBoundaryMode) : option (device T) :=
  s ← surfaces dev !! surfObj;
  if layered (array s) then None
  else arr ← surf_write v (array s) x y z mode;
       Some (update_array dev surfObj arr s).

(** [T surf2DLayeredread<T>(cudaSurfaceObject_t surfObj, int x, int y,
    int layer, cudaSurfaceBoundaryMode boundaryMode)]: [x] is a byte
    offset; the surface must be bound to a layered array; the third
    coordinate is the layer. *)
Definition surf2DLayeredread (dev : device T) (surfObj : positive)
    (x y layer : Z) (mode : cudaSurfaceBoundaryMode) : option T :=
  s ← surfaces dev !! surfObj;
  if layered (array s) then surf_read (array s) x y layer mode else None.

(** [surf2DLayeredwrite(v, surfObj, x, y, layer, boundaryMode)] *)
Definition surf2DLayeredwrite (v : T) (dev : device T) (surfObj : positive)
    (x y layer : Z) (mode : cudaSurfaceBoundaryMode) : option (device T) :=
  s ← surfaces dev !! surfObj;
  if layered (array s)
  then arr ← surf_write v (array s) x y layer mode;
       Some (update_array dev surfObj arr s)
  else None.

End Runtime.

(** ** Memory copies between host and device arrays

    Host memory is a flat list of elements and a host pointer is an
    offset into it: nothing of a pointer says how long the buffer
    behind it is. A copy that would read or write past the end of host
    memory faults ([None]); a copy that does not fit the device array is
    refused by the runtime with an error code and copies nothing. *)
Section Memcpy.
Context {T : Type} `{Scalar T}.

Definition splice (l : list T) (start : nat) (src : list T) : list T :=
  take start l ++ src ++ drop (start + length src) l.

(** [cudaMemcpyToArray(dst, wOffset, hOffset, src, count,
    cudaMemcpyHostToDevice)] *)
Definition cudaMemcpyToArray (dev : device T) (dst : positive)
    (wOffset hOffset : Z) (host : list T) (src : nat) (count : Z)
    : option (cudaError * device T) :=
  match surfaces dev !! dst with
  | None => Some (cudaErrorInvalidValue, dev)
  | Some s =>
      let n := Z.to_nat (count / sizeof) in
      let start :=
        Z.to_nat (hOffset * extent_w (array s) + wOffset / sizeof) in
      if decide (start + n ≤ length (texels (array s)))%nat then
        if decide (src + n ≤ length host)%nat then
          let arr :=
            with_texels (array s)
              (splice (texels (array s)) start (take n (drop src host))) in
          Some (cudaSuccess, update_array dev dst arr s)
        else None
      else Some (cudaErrorInvalidValue, dev)
  end.

(** [cudaMemcpyFromArray(dst, src, wOffset, hOffset, count,
    cudaMemcpyDeviceToHost)] *)
Definition cudaMemcpyFromArray (host : list T) (dst : nat)
    (dev : device T) (src : positive) (wOffset hOffset : Z) (count : Z)
    : option (cudaError * list T) :=
  match surfaces dev !! src with
  | None => Some (cudaErrorInvalidValue, host)
  | Some s =>
      let n := Z.to_nat (count / sizeof) in
      let start :=
        Z.to_nat (hOffset * extent_w (array s) + wOffset / sizeof) in
      if decide (start + n ≤ length (texels (array s)))%nat then
        if decide (dst + n ≤ length host)%nat then
          Some (cudaSuccess,
                splice host dst (take n (drop start (texels (array s)))))
        else None
      else Some (cudaErrorInvalidValue, host)
  end.

End Memcpy.

(** ** The shared surface handle *)

(** Modelled from the spec: the class [CudaSharedSurfaceObject] is not
    part of cudaSurface3D.h. Per the spec it is a reference-counted
    wrapper around a native surface object and its backing device
    array, shared by all shallow copies and released when the last
    reference is dropped; its constructor allocates the device array
    and fails with a runtime error when the allocation fails. *)
Record CudaSharedSurfaceObject := SharedSurface { dev_array : positive }.

#[global] Instance CudaSharedSurfaceObject_eq_dec :
  EqDecision CudaSharedSurfaceObject.
Proof. solve_decision. Defined.

Definition get_cuda_api_object (s : CudaSharedSurfaceObject) : positive :=
  dev_array s.

Section SharedSurface.
Context {T : Type} `{Scalar T}.

Definition array_bytes (arr : cudaArray T) : Z :=
  sizeof * (extent_w arr * extent_h arr * extent_d arr).

(** Modelled from the spec: a new reference to an allocation. *)
Definition acquire (dev : device T) (h : positive) : device T :=
  match surfaces dev !! h with
  | Some s =>
      Device (free_bytes dev)
             (<[h := Slot (S (refcount s)) (array s)]> (surfaces dev))
  | None => dev
  end.

(** Modelled from the spec: a reference is dropped; the allocation is
    released exactly when the count reaches zero. *)
Definition release (dev : device T) (h : positive) : device T :=
  match surfaces dev !! h with
  | Some s =>
      match refcount s with
      | S (S n) =>
          Device (free_bytes dev)
                 (<[h := Slot (S n) (array s)]> (surfaces dev))
      | _ =>
          Device (free_bytes dev + array_bytes (array s))
                 (delete h (surfaces dev))
      end
  | None => dev
  end.

(** Modelled from the spec: the constructor
    [CudaSharedSurfaceObject(width, height, depth, is_layered)]. The
    allocation fails when the device has not enough free memory. *)
Definition CudaSharedSurfaceObject_new (dev : device T)
    (width height depth : Z) (is_layered : bool)
    : cudaError + (device T * CudaSharedSurfaceObject) :=
  let bytes := sizeof * (width * height * depth) in
  if decide (0 ≤ bytes ≤ free_bytes dev) then
    let h := fresh (dom (surfaces dev)) in
    let arr :=
      CudaArray width height depth is_layered
                (replicate (Z.to_nat (width * height * depth)) zero) in
    inr (Device (free_bytes dev - bytes)
                (<[h := Slot 1 arr]> (surfaces dev)),
         SharedSurface h)
  else inl cudaErrorMemoryAllocation.

(** Modelled from the spec: copy construction shares the handle. *)
Definition CudaSharedSurfaceObject_copy (dev : device T)
    (other : CudaSharedSurfaceObject)
    : device T * CudaSharedSurfaceObject :=
  (acquire dev (dev_array other), other).

(** Modelled from the spec: assignment takes a reference to the new
    allocation and drops the one held before. *)
Definition CudaSharedSurfaceObject_assign (dev : device T)
    (this other : CudaSharedSurfaceObject)
    : device T * CudaSharedSurfaceObject :=
  (release (acquire dev (dev_array other)) (dev_array this), other).

End SharedSurface.

(** ** The base class of all 3D arrays *)

(** Modelled from the spec: [CudaArray3DBase] is declared in
    cudaArray3DBase.h, which is not part of this file. Per the spec its
    fields are the array dimensions and the kernel launch shape (block
    and grid dimensions, execution stream), plain values copied by
    value on every instance copy; the grid dimension is computed from
    the array size and the block size. *)
Record CudaArray3DBase := ArrayBase {
  width_ : Z;
  height_ : Z;
  depth_ : Z;
  block_dim_ : dim3;
  grid_dim_ : dim3;
  stream_ : cudaStream_t
}.

#[global] Instance CudaArray3DBase_eq_dec : EqDecision CudaArray3DBase.
Proof. solve_decision. Defined.

Definition ceil_div (a b : Z) : Z := (a + b - 1) / b.

(** Modelled from the spec: [CudaArray3DBase(width, height, depth,
    block_dim, stream)]. *)
Definition CudaArray3DBase_new (width height depth : Z) (block_dim : dim3)
    (stream : cudaStream_t) : CudaArray3DBase :=
  ArrayBase width height depth block_dim
    (Dim3 (ceil_div width (dim_x block_dim))
          (ceil_div height (dim_y block_dim))
          (ceil_div depth (dim_z block_dim)))
    stream.

(** Modelled from the spec: [CudaArray3DBase::operator=] copies every
    field of the base by value. *)
Definition CudaArray3DBase_assign (this other : CudaArray3DBase)
    : CudaArray3DBase :=
  ArrayBase (width_ other) (height_ other) (depth_ other)
            (block_dim_ other) (grid_dim_ other) (stream_ other).

(** ** [CudaSurface3DBase<Derived>] *)

(** The inherited part, then the two protected fields [surface] and
    [boundary_mode_]. *)
Record CudaSurface3DBase := SurfaceBase {
  Base : CudaArray3DBase;
  surface : CudaSharedSurfaceObject;
  boundary_mode_ : cudaSurfaceBoundaryMode
}.

#[global] Instance CudaSurface3DBase_eq_dec : EqDecision CudaSurface3DBase.
Proof. solve_decision. Defined.

(** Host objects by address, and the device. *)
Record heap (T : Type) := Heap {
  objects : gmap positive CudaSurface3DBase;
  gpu : device T
}.
Arguments Heap {T}.
Arguments objects {T}.
Arguments gpu {T}.

(** *** Calls of the six-parameter constructor

    An argument of a constructor call, by its static type. *)
Inductive argument :=
| arg_size_t (n : Z)
| arg_dim3 (d : dim3)
| arg_stream (s : cudaStream_t)
| arg_boundary_mode (m : cudaSurfaceBoundaryMode).

Definition boundary_mode_value (m : cudaSurfaceBoundaryMode) : Z :=
  match m with
  | cudaBoundaryModeZero => 0
  | cudaBoundaryModeClamp => 1
  | cudaBoundaryModeTrap => 2
  end.

(** The implicit conversions C++ has between these types: an unscoped
    enumeration converts to an integer, an integer converts to [dim3]
    through the converting constructor [dim3(unsigned vx, vy = 1,
    vz = 1)]; nothing converts a [dim3] to an integer, or anything but a
    stream to a stream, or anything but a boundary mode to a boundary
    mode. *)
Definition as_size_t (a : argument) : option Z :=
  match a with
  | arg_size_t n => Some n
  | arg_boundary_mode m => Some (boundary_mode_value m)
  | arg_dim3 _ | arg_stream _ => None
  end.

Definition as_dim3 (a : argument) : option dim3 :=
  match a with
  | arg_dim3 d => Some d
  | arg_size_t n => Some (Dim3 (n mod 2 ^ 32) 1 1)
  | arg_boundary_mode m => Some (Dim3 (boundary_mode_value m) 1 1)
  | arg_stream _ => None
  end.

Definition as_stream (a : argument) : option cudaStream_t :=
  match a with
  | arg_stream s => Some s
  | _ => None
  end.

Definition as_boundary_mode (a : argument) : option cudaSurfaceBoundaryMode :=
  match a with
  | arg_boundary_mode m => Some m
  | _ => None
  end.

Record constructor_parameters := ConstructorParameters {
  p_width : Z;
  p_height : Z;
  p_depth : Z;
  p_block_dim : dim3;
  p_stream : cudaStream_t;
  p_boundary_mode : cudaSurfaceBoundaryMode
}.

Section Surface.
Context {T : Type} `{Scalar T}.

(** [CudaArray3DBase<Derived>::BLOCK_DIM], a constant of the absent
    base class. *)
Variable BLOCK_DIM : dim3.

(** Positional binding of the arguments of a call to the parameters
    [(width, height, depth, block_dim = BLOCK_DIM, stream = 0,
    boundary_mode = cudaBoundaryModeZero)]; [None] when the call is
    ill-formed. *)
Definition bind_constructor_call (args : list argument)
    : option constructor_parameters :=
  match args with
  | w :: h :: d :: rest =>
      width ← as_size_t w;
      height ← as_size_t h;
      depth ← as_size_t d;
      match rest with
      | [] =>
          Some (ConstructorParameters width height depth BLOCK_DIM 0
                  cudaBoundaryModeZero)
      | [b] =>
          block_dim ← as_dim3 b;
          Some (ConstructorParameters width height depth block_dim 0
                  cudaBoundaryModeZero)
      | [b; s] =>
          block_dim ← as_dim3 b;
          stream ← as_stream s;
          Some (ConstructorParameters width height depth block_dim stream
                  cudaBoundaryModeZero)
      | [b; s; m] =>
          block_dim ← as_dim3 b;
          stream ← as_stream s;
          boundary_mode ← as_boundary_mode m;
          Some (ConstructorParameters width height depth block_dim stream
                  boundary_mode)
      | _ => None
      end
  | _ => None
  end.

(** The constructor: [Base(width, height, depth, block_dim, stream)],
    [boundary_mode_(boundary_mode)], [surface(width, height, depth,
    CudaArrayTraits<Derived>::IS_LAYERED)]. A failure of the member's
    constructor leaves the constructor with the same error. *)
Definition CudaSurface3DBase_new (D : Derived) (dev : device T)
    (width height depth : Z) (block_dim : dim3) (stream : cudaStream_t)
    (boundary_mode : cudaSurfaceBoundaryMode)
    : cudaError + (device T * CudaSurface3DBase) :=
  match
    CudaSharedSurfaceObject_new dev width height depth (IS_LAYERED D)
  with
  | inl e => inl e
  | inr (dev', s) =>
      inr (dev',
           SurfaceBase
             (CudaArray3DBase_new width height depth block_dim stream)
             s boundary_mode)
  end.

(** The copy constructor: [Base(other)],
    [boundary_mode_(other.boundary_mode_)], [surface(other.surface)]. *)
Definition CudaSurface3DBase_copy (dev : device T)
    (other : CudaSurface3DBase) : device T * CudaSurface3DBase :=
  let '(dev', s) := CudaSharedSurfaceObject_copy dev (surface other) in
  (dev', SurfaceBase (Base other) s (boundary_mode_ other)).

(** [emptyCopy()]: the call
    [CudaSurface3DBase<Derived>(width_, height_, block_dim_, stream_,
    boundary_mode_)]. *)
Definition emptyCopy (D : Derived) (dev : device T)
    (this : CudaSurface3DBase)
    : option (cudaError + (device T * CudaSurface3DBase)) :=
  p ← bind_constructor_call
        [arg_size_t (width_ (Base this));
         arg_size_t (height_ (Base this));
         arg_dim3 (block_dim_ (Base this));
         arg_stream (stream_ (Base this));
         arg_boundary_mode (boundary_mode_ this)];
  Some (CudaSurface3DBase_new D dev (p_width p) (p_height p) (p_depth p)
          (p_block_dim p) (p_stream p) (p_boundary_mode p)).

(** [sizeof(Scalar) * width_ * height_ * depth_], in [size_t]. *)
Definition transfer_size (this : CudaSurface3DBase) : Z :=
  to_size_t
    (to_size_t (to_size_t (sizeof * width_ (Base this))
                * height_ (Base this))
     * depth_ (Base this)).

(** [operator=(const Scalar *host_array)]; the error code of the copy
    is dropped and [*this] is returned as it is. *)
Definition assign_host (this : CudaSurface3DBase) (dev : device T)
    (host : list T) (host_array : nat) : option (device T) :=
  '(_, dev') ← cudaMemcpyToArray dev (dev_array (surface this)) 0 0
                 host host_array (transfer_size this);
  Some dev'.

(** [copyTo(Scalar *host_array)] *)
Definition copyTo (this : CudaSurface3DBase) (dev : device T)
    (host : list T) (host_array : nat) : option (list T) :=
  '(_, host') ← cudaMemcpyFromArray host host_array dev
                  (dev_array (surface this)) 0 0 (transfer_size this);
  Some host'.

(** [operator=(const CudaSurface3DBase<Derived> &other)], on the
    objects at the addresses [this] and [other]. *)
Definition assign (this other : positive) (σ : heap T) : option (heap T) :=
  if decide (this = other) then Some σ
  else
    o ← objects σ !! other;
    t ← objects σ !! this;
    let base := CudaArray3DBase_assign (Base t) (Base o) in
    let '(dev', s) :=
      CudaSharedSurfaceObject_assign (gpu σ) (surface t) (surface o) in
    let t' := SurfaceBase base s (boundary_mode_ o) in
    Some (Heap (<[this := t']> (objects σ)) dev').

(** [get_boundary_mode()] *)
Definition get_boundary_mode (this : positive) (σ : heap T)
    : option cudaSurfaceBoundaryMode :=
  t ← objects σ !! this;
  Some (boundary_mode_ t).

(** [set_boundary_mode(boundary_mode)] *)
Definition set_boundary_mode (this : positive)
    (boundary_mode : cudaSurfaceBoundaryMode) (σ : heap T)
    : option (heap T) :=
  t ← objects σ !! this;
  Some (Heap (<[this := SurfaceBase (Base t) (surface t) boundary_mode]>
               (objects σ))
             (gpu σ)).

(** *** The leaf classes

    [sizeof(T) * x] is computed in [size_t] ([x] converted first) and
    converted to the [int] parameter of the intrinsic. *)
Definition byte_offset (x : Z) : Z :=
  to_int (to_size_t (sizeof * to_size_t x)).

(** [CudaSurface2DArray<T>::set] *)
Definition CudaSurface2DArray_set (this : CudaSurface3DBase)
    (dev : device T) (x y z : Z) (v : T) : option (device T) :=
  surf2DLayeredwrite v dev (get_cuda_api_object (surface this))
    (byte_offset x) y z (boundary_mode_ this).

(** [CudaSurface2DArray<T>::get] *)
Definition CudaSurface2DArray_get (this : CudaSurface3DBase)
    (dev : device T) (x y z : Z) : option T :=
  surf2DLayeredread dev (get_cuda_api_object (surface this))
    (byte_offset x) y z (boundary_mode_ this).

(** [CudaSurface3D<T>::set] *)
Definition CudaSurface3D_set (this : CudaSurface3DBase)
    (dev : device T) (x y z : Z) (v : T) : option (device T) :=
  surf3Dwrite v dev (get_cuda_api_object (surface this))
    (byte_offset x) y z (boundary_mode_ this).

(** [CudaSurface3D<T>::get] *)
Definition CudaSurface3D_get (this : CudaSurface3DBase)
    (dev : device T) (x y z : Z) : option T :=
  surf3Dread dev (get_cuda_api_object (surface this))
    (byte_offset x) y z (boundary_mode_ this).

(** Static dispatch on the leaf class. *)
Definition set (D : Derived) :=
  match D with
  | CudaSurface2DArray => CudaSurface2DArray_set
  | CudaSurface3D => CudaSurface3D_set
  end.

Definition get (D : Derived) :=
  match D with
  | CudaSurface2DArray => CudaSurface2DArray_get
  | CudaSurface3D => CudaSurface3D_get
  end.

End Surface.

(** ** Sequences of shallow copies

    The two operations that copy an instance without a host buffer:
    copy construction of a new object at a free address, and
    assignment between two objects. *)
Inductive shallow_op :=
| copy_construct (new other : positive)
| copy_assign (this other : positive).

Definition target (o : shallow_op) : positive :=
  match o with
  | copy_construct new _ => new
  | copy_assign this _ => this
  end.

Definition source (o : shallow_op) : positive :=
  match o with
  | copy_construct _ other => other
  | copy_assign _ other => other
  end.

Section Executions.
Context {T : Type} `{Scalar T}.

Definition run_op (o : shallow_op) (σ : heap T) : option (heap T) :=
  match o with
  | copy_construct new other =>
      match objects σ !! new with
      | Some _ => None
      | None =>
          src ← objects σ !! other;
          let '(dev', c) := CudaSurface3DBase_copy (gpu σ) src in
          Some (Heap (<[new := c]> (objects σ)) dev')
      end
  | copy_assign this other => assign this other σ
  end.

Fixpoint run_ops (ops : list shallow_op) (σ : heap T) : option (heap T) :=
  match ops with
  | [] => Some σ
  | o :: ops' => σ' ← run_op o σ; run_ops ops' σ'
  end.

(** Every object of [σ'] holds a handle that an object of [σ] holds. *)
Definition handles_from (σ σ' : heap T) : Prop :=
  ∀ p c, objects σ' !! p = Some c →
         ∃ q s, objects σ !! q = Some s ∧ surface c = surface s.

End Executions.

(** ** Assignment from a host array, as an expression

    [b = host_array] is resolved against the [operator=] members that
    name lookup finds in the class of [b]. The base class declares the
    two operators of this file. A leaf class declares none: its using
    declaration inherits the constructors only, and the copy and move
    assignment operators that are implicitly declared for it hide the
    operators of the base. *)
Inductive object_type := base_type | leaf_type.

Inductive assignment_operator :=
| base_copy_assignment
| base_host_assignment
| leaf_copy_assignment
| leaf_move_assignment.

Definition assignment_operators (ty : object_type)
    : list assignment_operator :=
  match ty with
  | base_type => [base_copy_assignment; base_host_assignment]
  | leaf_type => [leaf_copy_assignment; leaf_move_assignment]
  end.

(** The operators that accept an argument of type [const Scalar *]: no
    constructor of these classes converts a pointer to an instance. *)
Definition takes_host_array (op : assignment_operator) : bool :=
  match op with
  | base_host_assignment => true
  | _ => false
  end.

Section Expressions.
Context {T : Type} `{Scalar T}.

(** [b = host_array] on an object [b] of static type [ty]: [None] when
    the expression is ill-formed, else what the operator does. *)
Definition assign_host_expression (ty : object_type)
    (this : CudaSurface3DBase) (dev : device T) (host : list T)
    (host_array : nat) : option (option (device T)) :=
  if existsb takes_host_array (assignment_operators ty)
  then Some (assign_host this dev host host_array)
  else None.

End Expressions.

(** ** Holders and reference counts *)

(** The number of objects that hold the handle [h]. *)
Definition holders (objs : gmap positive CudaSurface3DBase) (h : positive)
    : nat :=
  map_fold (λ _ o n, if decide (dev_array (surface o) = h) then S n else n)
           0%nat objs.

(** The reference count of the allocation [h]; none when there is no
    such allocation. *)
Definition references {T : Type} (dev : device T) (h : positive) : nat :=
  from_option refcount 0%nat (surfaces dev !! h).

(** Every allocation is counted once per object that holds its
    handle, and no object holds a handle without an allocation. *)
Definition counted {T : Type} (σ : heap T) : Prop :=
  ∀ h, holders (objects σ) h = references (gpu σ) h.

(** Every object of [σ'] is an object of [σ], possibly at another
    address. *)
Definition objects_from {T : Type} (σ σ' : heap T) : Prop :=
  ∀ p c, objects σ' !! p = Some c → ∃ q, objects σ !! q = Some c.

(** ** Well-formed instances

    [backs D dev a]: the handle of [a] names a live allocation of [dev]
    (at least one reference) whose array has the extents of [a], the
    layout of the leaf class [D], and one element per coordinate. *)
Definition backs {T : Type} (D : Derived) (dev : device T)
    (a : CudaSurface3DBase) : bool :=
  match surfaces dev !! dev_array (surface a) with
  | Some s =>
      (0 <? Z.of_nat (refcount s))
      && (extent_w (array s) =? width_ (Base a))
      && (extent_h (array s) =? height_ (Base a))
      && (extent_d (array s) =? depth_ (Base a))
      && Bool.eqb (layered (array s)) (IS_LAYERED D)
      && (Z.of_nat (length (texels (array s)))
          =? width_ (Base a) * height_ (Base a) * depth_ (Base a))
  | None => false
  end.

(** Coordinates inside the declared extents. *)
Definition in_extent (a : CudaSurface3DBase) (x y z : Z) : Prop :=
  0 ≤ x < width_ (Base a) ∧ 0 ≤ y < height_ (Base a)
  ∧ 0 ≤ z < depth_ (Base a).

(** The element of the array behind [a], by linear index. *)
Definition element {T : Type} (dev : device T) (a : CudaSurface3DBase)
    (i : nat) : option T :=
  s ← surfaces dev !! dev_array (surface a);
  texels (array s) !! i.

(** The linear index of a coordinate in x-fastest order. *)
Definition linear_index (a : CudaSurface3DBase) (x y z : Z) : nat :=
  Z.to_nat ((z * height_ (Base a) + y) * width_ (Base a) + x).

(** A row of the array is addressable in bytes by an [int]. *)
Definition row_fits {T : Type} `{Scalar T} (a : CudaSurface3DBase) : Prop :=
  sizeof * width_ (Base a) ≤ 2 ^ 31.

(** The number of elements of the declared extents. *)
Definition element_count (a : CudaSurface3DBase) : nat :=
  Z.to_nat (width_ (Base a) * height_ (Base a) * depth_ (Base a)).

(** The size of the array in bytes is a [size_t]. *)
Definition array_fits {T : Type} `{Scalar T} (a : CudaSurface3DBase) : Prop :=
  sizeof * (width_ (Base a) * height_ (Base a) * depth_ (Base a)) < 2 ^ 64.

(** The byte offset of [x], as the intrinsic receives it, lies in a
    row of the array, and [y] and [z] lie inside their extents. *)
Definition wraps_into_extent {T : Type} `{Scalar T} (a : CudaSurface3DBase)
    (x y z : Z) : Prop :=
  0 ≤ to_int (sizeof * x) < sizeof * width_ (Base a)
  ∧ 0 ≤ y < height_ (Base a) ∧ 0 ≤ z < depth_ (Base a).

(** No allocation of [dev'] is new or altered: each one is an
    allocation of [dev] with the same array. *)
Definition no_new_arrays {T : Type} (dev dev' : device T) : Prop :=
  ∀ h s', surfaces dev' !! h = Some s' →
          ∃ s, surfaces dev !! h = Some s ∧ array s' = array s.

(** ** A concrete configuration

    [T = int]: four bytes, zero is [0]. *)
#[global] Instance int_scalar : Scalar Z :=
  {| sizeof := 4; zero := 0; sizeof_pos := eq_refl |}.

(** A device with 4096 free bytes and no allocation. *)
Definition empty_device : device Z := Device 4096 ∅.

(** An instance of extents 2 x 2 x 2 on handle 1. *)
Definition cube (m : cudaSurfaceBoundaryMode) : CudaSurface3DBase :=
  SurfaceBase (ArrayBase 2 2 2 (Dim3 8 8 1) (Dim3 1 1 2) 0)
              (SharedSurface 1) m.

(** The device after that instance was allocated for the leaf [D] and
    filled with [l], with [n] references to it. *)
Definition cube_device (D : Derived) (n : nat) (l : list Z) : device Z :=
  Device 4064 {[ 1%positive := Slot n (CudaArray 2 2 2 (IS_LAYERED D) l) ]}.

(** A second instance, of extents 1 x 1 x 1 on handle 2. *)
Definition dot : CudaSurface3DBase :=
  SurfaceBase (ArrayBase 1 1 1 (Dim3 8 8 1) (Dim3 1 1 1) 0)
              (SharedSurface 2) cudaBoundaryModeClamp.

(** Two objects with an allocation each: [cube] at address 1, [dot] at
    address 2. *)
Definition two_arrays : heap Z :=
  Heap {[ 1%positive := cube cudaBoundaryModeZero; 2%positive := dot ]}
       (Device 4060
          {[ 1%positive :=
               Slot 1 (CudaArray 2 2 2 false [1; 2; 3; 4; 5; 6; 7; 8]);
             2%positive := Slot 1 (CudaArray 1 1 1 false [9]) ]}).

(** Two objects that share one allocation, with different boundary
    modes. *)
Definition shared_array : heap Z :=
  Heap {[ 1%positive := cube cudaBoundaryModeZero;
          2%positive := cube cudaBoundaryModeTrap ]}
       (cube_device CudaSurface3D 2 [1; 2; 3; 4; 5; 6; 7; 8]).

(** A second instance of extents 2 x 2 x 2, on handle 2. *)
Definition cube2 (m : cudaSurfaceBoundaryMode) : CudaSurface3DBase :=
  SurfaceBase (ArrayBase 2 2 2 (Dim3 8 8 1) (Dim3 1 1 2) 0)
              (SharedSurface 2) m.

(** A device with the arrays of [cube] and [cube2], of different
    contents. *)
Definition two_cubes : device Z :=
  Device 4032
    {[ 1%positive := Slot 1 (CudaArray 2 2 2 false [1; 2; 3; 4; 5; 6; 7; 8]);
       2%positive :=
         Slot 1 (CudaArray 2 2 2 false [21; 22; 23; 24; 25; 26; 27; 28]) ]}.

(** Case analysis on the leaf class, down to the intrinsic it calls. *)
Ltac leaf_cases D :=
  destruct D; simpl in *;
  unfold CudaSurface2DArray_get, CudaSurface2DArray_set, CudaSurface3D_get,
    CudaSurface3D_set, surf2DLayeredread, surf2DLayeredwrite, surf3Dread,
    surf3Dwrite, get_cuda_api_object.

(** ** Integer conversions *)

Lemma to_int_id (n : Z) : - 2 ^ 31 ≤ n < 2 ^ 31 → to_int n = n.
Proof.
  intros Hn. unfold to_int.
  rewrite Z.mod_small by lia. lia.
Qed.

Lemma to_int_to_size_t (n : Z) : to_int (to_size_t n) = to_int n.
Proof.
  unfold to_int, to_size_t.
  rewrite (Z.div_mod n (2 ^ 64)) at 2 by lia.
  replace (2 ^ 64 * (n / 2 ^ 64) + n mod 2 ^ 64 + 2 ^ 31)
    with (n mod 2 ^ 64 + 2 ^ 31 + (2 ^ 32 * (n / 2 ^ 64)) * 2 ^ 32) by lia.
  now rewrite Z_mod_plus_full.
Qed.

Section Conversions.
Context {T : Type} `{Scalar T}.

Lemma byte_offset_to_int (x : Z) : byte_offset x = to_int (sizeof * x).
Proof.
  unfold byte_offset. rewrite to_int_to_size_t.
  rewrite <- (to_int_to_size_t (sizeof * x)).
  rewrite <- (to_int_to_size_t (sizeof * to_size_t x)).
  f_equal. unfold to_size_t.
  now rewrite Z.mul_mod_idemp_r by lia.
Qed.

Lemma byte_offset_exact (x : Z) :
  - 2 ^ 31 ≤ sizeof * x < 2 ^ 31 → byte_offset x = sizeof * x.
Proof. intros Hx. rewrite byte_offset_to_int. now apply to_int_id. Qed.

Lemma scaled_div (x : Z) : sizeof * x / sizeof = x.
Proof.
  pose proof sizeof_pos.
  rewrite Z.mul_comm. apply Z.div_mul. lia.
Qed.

End Conversions.

(** ** Linear indices *)

Lemma linear_index_bound (w h d x y z : Z) :
  0 ≤ x < w → 0 ≤ y < h → 0 ≤ z < d →
  0 ≤ (z * h + y) * w + x < w * h * d.
Proof.
  intros Hx Hy Hz.
  assert (0 ≤ z * h + y) by nia.
  assert (z * h + y ≤ d * h - 1) by nia.
  split; [nia |].
  assert ((z * h + y) * w ≤ (d * h - 1) * w) by (apply Z.mul_le_mono_nonneg_r; lia).
  nia.
Qed.

Lemma split_index_unique (w a x a' x' : Z) :
  0 ≤ x < w → 0 ≤ x' < w → a * w + x = a' * w + x' → a = a' ∧ x = x'.
Proof.
  intros Hx Hx' Heq.
  assert (a = a') as ->; [| lia].
  destruct (Z.lt_trichotomy a a') as [Hlt | [Heq' | Hgt]]; [| done |].
  - assert ((a + 1) * w ≤ a' * w) by (apply Z.mul_le_mono_nonneg_r; lia). lia.
  - assert ((a' + 1) * w ≤ a * w) by (apply Z.mul_le_mono_nonneg_r; lia). lia.
Qed.

Lemma linear_index_inj (w h d x y z x' y' z' : Z) :
  0 ≤ x < w → 0 ≤ y < h → 0 ≤ z < d →
  0 ≤ x' < w → 0 ≤ y' < h → 0 ≤ z' < d →
  (z * h + y) * w + x = (z' * h + y') * w + x' →
  x = x' ∧ y = y' ∧ z = z'.
Proof.
  intros Hx Hy Hz Hx' Hy' Hz' Heq.
  apply split_index_unique in Heq as [Hzy ->]; [| lia | lia].
  apply split_index_unique in Hzy as [-> ->]; [| lia | lia].
  done.
Qed.

(** ** Element access inside the extents *)

Lemma backs_inv {T : Type} (D : Derived) (dev : device T)
    (a : CudaSurface3DBase) :
  backs D dev a = true →
  ∃ s, surfaces dev !! dev_array (surface a) = Some s
       ∧ (0 < refcount s)%nat
       ∧ extent_w (array s) = width_ (Base a)
       ∧ extent_h (array s) = height_ (Base a)
       ∧ extent_d (array s) = depth_ (Base a)
       ∧ layered (array s) = IS_LAYERED D
       ∧ Z.of_nat (length (texels (array s)))
         = width_ (Base a) * height_ (Base a) * depth_ (Base a).
Proof.
  unfold backs. destruct (surfaces dev !! dev_array (surface a)) as [s |];
    [| discriminate].
  rewrite !andb_true_iff, !Z.eqb_eq, Z.ltb_lt, Bool.eqb_true_iff.
  intros (((((? & ?) & ?) & ?) & ?) & ?).
  exists s. repeat split; try done. lia.
Qed.

Lemma backs_intro {T : Type} (D : Derived) (dev : device T)
    (a : CudaSurface3DBase) (s : slot T) :
  surfaces dev !! dev_array (surface a) = Some s →
  (0 < refcount s)%nat →
  extent_w (array s) = width_ (Base a) →
  extent_h (array s) = height_ (Base a) →
  extent_d (array s) = depth_ (Base a) →
  layered (array s) = IS_LAYERED D →
  Z.of_nat (length (texels (array s)))
  = width_ (Base a) * height_ (Base a) * depth_ (Base a) →
  backs D dev a = true.
Proof.
  intros Hs Hr Hw Hh Hd Hl Hlen. unfold backs. rewrite Hs.
  rewrite !andb_true_iff, !Z.eqb_eq, Z.ltb_lt, Bool.eqb_true_iff.
  repeat split; try done. lia.
Qed.

Section Access.
Context {T : Type} `{Scalar T}.

Lemma in_extent_in_range (arr : cudaArray T) (a : CudaSurface3DBase)
    (x y z : Z) :
  extent_w arr = width_ (Base a) →
  extent_h arr = height_ (Base a) →
  extent_d arr = depth_ (Base a) →
  row_fits a → in_extent a x y z →
  in_range arr (byte_offset x) y z = true
  ∧ texel_index arr (byte_offset x) y z = linear_index a x y z.
Proof.
  intros Hw Hh Hd Hfit (Hx & Hy & Hz). unfold row_fits in Hfit.
  pose proof sizeof_pos as Hpos.
  assert (0 ≤ sizeof * x < sizeof * width_ (Base a)) as Hxb by nia.
  rewrite byte_offset_exact by lia.
  split.
  - unfold in_range. rewrite Hw, Hh, Hd.
    rewrite !andb_true_iff, !Z.leb_le, !Z.ltb_lt. lia.
  - unfold texel_index, linear_index.
    now rewrite scaled_div, Hw, Hh.
Qed.

Lemma linear_index_lt (dev : device T) (a : CudaSurface3DBase)
    (s : slot T) (x y z : Z) :
  Z.of_nat (length (texels (array s)))
  = width_ (Base a) * height_ (Base a) * depth_ (Base a) →
  in_extent a x y z →
  (linear_index a x y z < length (texels (array s)))%nat.
Proof.
  intros Hlen (Hx & Hy & Hz). unfold linear_index.
  pose proof (linear_index_bound _ _ _ _ _ _ Hx Hy Hz). lia.
Qed.

(** In range, a read is the addressed element whatever the boundary
    mode and whatever else the instance holds. *)
Lemma get_in_range (D : Derived) (dev : device T)
    (a : CudaSurface3DBase) (s : slot T) (x y z : Z) :
  surfaces dev !! dev_array (surface a) = Some s →
  layered (array s) = IS_LAYERED D →
  in_range (array s) (byte_offset x) y z = true →
  get D a dev x y z
  = texels (array s) !! texel_index (array s) (byte_offset x) y z.
Proof.
  intros Hs Hl Hr.
  leaf_cases D; rewrite Hs; simpl; rewrite Hl; unfold surf_read;
    now rewrite Hr.
Qed.

Lemma set_in_range (D : Derived) (dev : device T)
    (a : CudaSurface3DBase) (s : slot T) (x y z : Z) (v : T) :
  surfaces dev !! dev_array (surface a) = Some s →
  layered (array s) = IS_LAYERED D →
  in_range (array s) (byte_offset x) y z = true →
  set D a dev x y z v
  = Some (update_array dev (dev_array (surface a))
            (with_texels (array s)
               (<[texel_index (array s) (byte_offset x) y z := v]>
                  (texels (array s))))
            s).
Proof.
  intros Hs Hl Hr.
  leaf_cases D; rewrite Hs; simpl; rewrite Hl; unfold surf_write;
    now rewrite Hr.
Qed.

(** Inside the extents a read is the element at the linear index. *)
Lemma get_in_extent (D : Derived) (dev : device T)
    (a : CudaSurface3DBase) (x y z : Z) :
  backs D dev a = true → row_fits a → in_extent a x y z →
  get D a dev x y z = element dev a (linear_index a x y z).
Proof.
  intros Hb Hfit Hin.
  apply backs_inv in Hb as (s & Hs & _ & Hw & Hh & Hd & Hl & _).
  destruct (in_extent_in_range (array s) a x y z Hw Hh Hd Hfit Hin)
    as [Hr Hi].
  rewrite (get_in_range D dev a s) by done.
  unfold element. rewrite Hs. simpl. now rewrite Hi.
Qed.

Lemma backs_update_array (D : Derived) (dev : device T)
    (h : positive) (c : CudaSurface3DBase) (s : slot T) (l : list T) :
  surfaces dev !! h = Some s →
  length l = length (texels (array s)) →
  backs D (update_array dev h (with_texels (array s) l) s) c
  = backs D dev c.
Proof.
  intros Hs Hlen. unfold backs, update_array. simpl.
  destruct (decide (h = dev_array (surface c))) as [Heq | Hne].
  - rewrite <- Heq, lookup_insert_eq, Hs. simpl. now rewrite Hlen.
  - now rewrite lookup_insert_ne.
Qed.

(** A write through [b] inside the extents is read back through every
    instance [a] that holds the same handle, and changes no other
    element. *)
Lemma shared_write_visible (D : Derived) (dev : device T)
    (a b : CudaSurface3DBase) (x y z : Z) (v : T) :
  surface a = surface b →
  backs D dev b = true → row_fits b → in_extent b x y z →
  ∃ dev', set D b dev x y z v = Some dev'
          ∧ get D a dev' x y z = Some v
          ∧ (∀ c, backs D dev' c = backs D dev c)
          ∧ (∀ i, i ≠ linear_index b x y z →
                  element dev' b i = element dev b i).
Proof.
  intros Hsurf Hb Hfit Hin.
  apply backs_inv in Hb as (s & Hs & _ & Hw & Hh & Hd & Hl & Hlen).
  destruct (in_extent_in_range (array s) b x y z Hw Hh Hd Hfit Hin)
    as [Hr Hi].
  pose proof (linear_index_lt dev b s x y z Hlen Hin) as Hlt.
  eexists. split; [by apply (set_in_range D dev b s) |].
  rewrite Hi. split; [| split].
  - rewrite (get_in_range D _ a
               (Slot (refcount s)
                  (with_texels (array s)
                     (<[linear_index b x y z := v]> (texels (array s)))))).
    + simpl. unfold texel_index in Hi |- *. simpl. rewrite Hi.
      now apply list_lookup_insert_eq.
    + rewrite Hsurf. unfold update_array. simpl. apply lookup_insert_eq.
    + done.
    + done.
  - intros c. apply backs_update_array; [done |]. apply length_insert.
  - intros i Hi'. unfold element, update_array. simpl.
    rewrite lookup_insert_eq, Hs. simpl.
    now apply list_lookup_insert_ne.
Qed.

End Access.

(** ** Construction *)

Section Construction.
Context {T : Type} `{Scalar T}.

(** What a call of the constructor yields. *)
Lemma constructor_outcome (D : Derived) (dev : device T)
    (width height depth : Z) (block_dim : dim3) (stream : cudaStream_t)
    (boundary_mode : cudaSurfaceBoundaryMode) :
  match
    CudaSurface3DBase_new D dev width height depth block_dim stream
      boundary_mode
  with
  | inl e =>
      CudaSharedSurfaceObject_new dev width height depth (IS_LAYERED D)
      = inl e
  | inr (dev', a) =>
      width_ (Base a) = width ∧ height_ (Base a) = height
      ∧ depth_ (Base a) = depth ∧ block_dim_ (Base a) = block_dim
      ∧ stream_ (Base a) = stream ∧ boundary_mode_ a = boundary_mode
      ∧ surfaces dev !! dev_array (surface a) = None
      ∧ (∃ l, surfaces dev' !! dev_array (surface a)
              = Some (Slot 1 (CudaArray width height depth (IS_LAYERED D) l))
              ∧ length l = Z.to_nat (width * height * depth))
      ∧ (∀ h, h ≠ dev_array (surface a) →
              surfaces dev' !! h = surfaces dev !! h)
      ∧ backs D dev' a = true
      ∧ 0 ≤ sizeof * (width * height * depth) ≤ free_bytes dev
  end.
Proof.
  unfold CudaSurface3DBase_new, CudaSharedSurfaceObject_new.
  case_decide as Hfit; [| done]. simpl.
  assert (surfaces dev !! fresh (dom (surfaces dev)) = None) as Hfresh.
  { apply not_elem_of_dom, is_fresh. }
  do 6 (split; [done |]). split; [done |].
  split; [| split; [| split; [| done]]].
  - eexists. split; [apply lookup_insert_eq |]. apply length_replicate.
  - intros h Hh. now apply lookup_insert_ne.
  - pose proof sizeof_pos.
    assert (0 ≤ width * height * depth) by nia.
    eapply backs_intro; [apply lookup_insert_eq | simpl ..];
      try done; try lia.
    rewrite length_replicate. lia.
Qed.

(** C9. For every width, height, depth, launch shape, stream and
    boundary mode the constructor either fails with exactly the error
    of the device allocation, leaving the device as it was, or returns
    an instance of exactly the given extents and configuration whose
    handle is a new allocation of those extents, with one reference,
    every older allocation being untouched; and it fails whenever the
    allocation fails. *)
Theorem constructor_allocates_or_propagates (D : Derived) (dev : device T)
    (width height depth : Z) (block_dim : dim3) (stream : cudaStream_t)
    (boundary_mode : cudaSurfaceBoundaryMode) :
  match
    CudaSurface3DBase_new D dev width height depth block_dim stream
      boundary_mode
  with
  | inl e =>
      CudaSharedSurfaceObject_new dev width height depth (IS_LAYERED D)
      = inl e
  | inr (dev', a) =>
      width_ (Base a) = width ∧ height_ (Base a) = height
      ∧ depth_ (Base a) = depth ∧ block_dim_ (Base a) = block_dim
      ∧ stream_ (Base a) = stream ∧ boundary_mode_ a = boundary_mode
      ∧ surfaces dev !! dev_array (surface a) = None
      ∧ (∃ l, surfaces dev' !! dev_array (surface a)
              = Some (Slot 1 (CudaArray width height depth (IS_LAYERED D) l))
              ∧ length l = Z.to_nat (width * height * depth))
      ∧ (∀ h, h ≠ dev_array (surface a) →
              surfaces dev' !! h = surfaces dev !! h)
      ∧ backs D dev' a = true
  end
  ∧ (∀ e, CudaSharedSurfaceObject_new dev width height depth (IS_LAYERED D)
          = inl e →
          CudaSurface3DBase_new D dev width height depth block_dim stream
            boundary_mode = inl e).
Proof.
  split.
  - pose proof (constructor_outcome D dev width height
                  depth block_dim stream boundary_mode) as Hspec.
    destruct (CudaSurface3DBase_new D dev width height depth block_dim stream
                boundary_mode) as [e | [dev' a]]; [done |].
    destruct Hspec as (? & ? & ? & ? & ? & ? & ? & ? & ? & ? & _).
    done.
  - unfold CudaSurface3DBase_new. intros e ->. done.
Qed.

(** A call with all six arguments binds them in order; a call with the
    three extents takes the defaults of the other parameters. *)
Lemma bind_constructor_call_six (BLOCK_DIM : dim3) (w h d : Z) (b : dim3)
    (s : cudaStream_t) (m : cudaSurfaceBoundaryMode) :
  bind_constructor_call BLOCK_DIM
    [arg_size_t w; arg_size_t h; arg_size_t d; arg_dim3 b; arg_stream s;
     arg_boundary_mode m]
  = Some (ConstructorParameters w h d b s m).
Proof. reflexivity. Qed.

Lemma bind_constructor_call_three (BLOCK_DIM : dim3) (w h d : Z) :
  bind_constructor_call BLOCK_DIM [arg_size_t w; arg_size_t h; arg_size_t d]
  = Some (ConstructorParameters w h d BLOCK_DIM 0 cudaBoundaryModeZero).
Proof. reflexivity. Qed.

(** On a device whose free memory is a [size_t], the array of a
    constructed instance has a byte size that is a [size_t]. *)
Lemma constructed_array_fits (D : Derived) (dev dev' : device T)
    (width height depth : Z) (block_dim : dim3) (stream : cudaStream_t)
    (boundary_mode : cudaSurfaceBoundaryMode) (a : CudaSurface3DBase) :
  free_bytes dev < 2 ^ 64 →
  CudaSurface3DBase_new D dev width height depth block_dim stream
    boundary_mode = inr (dev', a) →
  array_fits a ∧ backs D dev' a = true.
Proof.
  intros Hfree Hnew.
  pose proof (constructor_outcome D dev width height depth
                block_dim stream boundary_mode) as Hspec.
  rewrite Hnew in Hspec.
  destruct Hspec as (Hw & Hh & Hd & _ & _ & _ & _ & _ & _ & Hb & Hbytes).
  split; [| done]. unfold array_fits. rewrite Hw, Hh, Hd. lia.
Qed.

(** C1 (fails in the code). [emptyCopy()] calls the six-parameter
    constructor with the five arguments [width_, height_, block_dim_,
    stream_, boundary_mode_]: [depth_] is left out, [block_dim_] stands
    where the depth is expected, and the call yields no instance, for
    every array instance. *)
Theorem emptyCopy_omits_depth (BLOCK_DIM : dim3) (D : Derived)
    (dev : device T) (this : CudaSurface3DBase) :
  emptyCopy BLOCK_DIM D dev this = None.
Proof. reflexivity. Qed.

End Construction.

(** ** Reference counting *)

Section References.
Context {T : Type} `{Scalar T}.

Lemma no_new_arrays_refl (dev : device T) : no_new_arrays dev dev.
Proof. intros h s Hs. eauto. Qed.

Lemma no_new_arrays_trans (dev1 dev2 dev3 : device T) :
  no_new_arrays dev1 dev2 → no_new_arrays dev2 dev3 →
  no_new_arrays dev1 dev3.
Proof.
  intros H12 H23 h s3 Hs3.
  destruct (H23 h s3 Hs3) as (s2 & Hs2 & Heq2).
  destruct (H12 h s2 Hs2) as (s1 & Hs1 & Heq1).
  exists s1. split; [done | congruence].
Qed.

Lemma acquire_lookup (dev : device T) (h h' : positive) :
  surfaces (acquire dev h) !! h'
  = if decide (h = h')
    then (λ s, Slot (S (refcount s)) (array s)) <$> surfaces dev !! h'
    else surfaces dev !! h'.
Proof.
  unfold acquire. case_decide as Hh.
  - subst h'. destruct (surfaces dev !! h) as [s |] eqn:Hs; simpl.
    + apply lookup_insert_eq.
    + by rewrite Hs.
  - destruct (surfaces dev !! h) as [s |]; simpl; [| done].
    now apply lookup_insert_ne.
Qed.

Lemma release_lookup_ne (dev : device T) (h h' : positive) :
  h ≠ h' → surfaces (release dev h) !! h' = surfaces dev !! h'.
Proof.
  intros Hne. unfold release.
  destruct (surfaces dev !! h) as [s |]; [| done].
  destruct (refcount s) as [| [| n]]; simpl.
  - now apply lookup_delete_ne.
  - now apply lookup_delete_ne.
  - now apply lookup_insert_ne.
Qed.

Lemma release_lookup_shared (dev : device T) (h : positive) (s : slot T)
    (n : nat) :
  surfaces dev !! h = Some s → refcount s = S (S n) →
  surfaces (release dev h) !! h = Some (Slot (S n) (array s)).
Proof.
  intros Hs Hr. unfold release. rewrite Hs, Hr. simpl.
  apply lookup_insert_eq.
Qed.

Lemma acquire_no_new_arrays (dev : device T) (h : positive) :
  no_new_arrays dev (acquire dev h).
Proof.
  intros h' s'. rewrite acquire_lookup. case_decide; [| eauto].
  destruct (surfaces dev !! h') as [s |]; simpl; [| done].
  intros [= <-]. eauto.
Qed.

Lemma release_no_new_arrays (dev : device T) (h : positive) :
  no_new_arrays dev (release dev h).
Proof.
  intros h' s'. destruct (decide (h = h')) as [<- | Hne].
  - unfold release. destruct (surfaces dev !! h) as [s |] eqn:Hs;
      [| rewrite Hs; done].
    destruct (refcount s) as [| [| n]]; simpl.
    + now rewrite lookup_delete_eq.
    + now rewrite lookup_delete_eq.
    + rewrite lookup_insert_eq. intros [= <-]. eauto.
  - rewrite release_lookup_ne by done. eauto.
Qed.

(** Taking a reference to [ha] and then dropping one to [hb] leaves
    the allocation [ha] alive with its array. *)
Lemma reassign_keeps_source (dev : device T) (ha hb : positive)
    (s : slot T) :
  surfaces dev !! ha = Some s → (0 < refcount s)%nat →
  ∃ s', surfaces (release (acquire dev ha) hb) !! ha = Some s'
        ∧ array s' = array s ∧ (0 < refcount s')%nat.
Proof.
  intros Hs Hr.
  assert (surfaces (acquire dev ha) !! ha
          = Some (Slot (S (refcount s)) (array s))) as Hacq.
  { rewrite acquire_lookup, decide_True by done. now rewrite Hs. }
  destruct (decide (hb = ha)) as [-> | Hne].
  - destruct (refcount s) as [| n] eqn:Hn; [lia |].
    erewrite release_lookup_shared; [| exact Hacq | simpl; reflexivity].
    eexists. split; [done |]. simpl. split; [done | lia].
  - rewrite release_lookup_ne by done. rewrite Hacq.
    eexists. split; [done |]. simpl. split; [done | lia].
Qed.

Lemma backs_same_array (D : Derived) (dev dev' : device T)
    (a b : CudaSurface3DBase) (s s' : slot T) :
  backs D dev a = true →
  surfaces dev !! dev_array (surface a) = Some s →
  surfaces dev' !! dev_array (surface b) = Some s' →
  array s' = array s → (0 < refcount s')%nat → Base b = Base a →
  backs D dev' b = true.
Proof.
  intros Hb Hs Hs' Harr Hr HB.
  apply backs_inv in Hb as (s0 & Hs0 & _ & Hw & Hh & Hd & Hl & Hlen).
  assert (s0 = s) as -> by congruence.
  apply (backs_intro D dev' b s'); rewrite ?Harr, ?HB; done.
Qed.

End References.

(** ** Instance assignment and the boundary mode *)

Section Assignment.
Context {T : Type} `{Scalar T}.

Lemma assign_same_address (σ : heap T) (this : positive) :
  assign this this σ = Some σ.
Proof. unfold assign. now rewrite decide_True. Qed.

(** C10. The self-assignment [a = a] returns with the whole state as
    it was: every field of every object, every allocation and every
    reference count. *)
Theorem self_assignment_is_noop (σ : heap T) (this : positive) :
  assign this this σ = Some σ.
Proof. apply assign_same_address. Qed.

(** C8. [set_boundary_mode(m)] changes the boundary mode of the
    instance it is called on to [m] and nothing else: the other fields
    of that instance, every other object (also one that shares the
    surface handle, which keeps its own boundary mode) and the device
    are as before. *)
Theorem set_boundary_mode_frame (σ : heap T) (this : positive)
    (t : CudaSurface3DBase) (m : cudaSurfaceBoundaryMode) :
  objects σ !! this = Some t →
  ∃ σ' t',
    set_boundary_mode this m σ = Some σ'
    ∧ get_boundary_mode this σ' = Some m
    ∧ objects σ' !! this = Some t'
    ∧ Base t' = Base t ∧ surface t' = surface t
    ∧ (∀ p, p ≠ this → objects σ' !! p = objects σ !! p)
    ∧ (∀ p o, p ≠ this → objects σ !! p = Some o →
              surface o = surface t →
              get_boundary_mode p σ' = Some (boundary_mode_ o))
    ∧ gpu σ' = gpu σ.
Proof.
  intros Ht. unfold set_boundary_mode, get_boundary_mode. rewrite Ht. simpl.
  eexists. eexists. split; [reflexivity |]. simpl.
  rewrite lookup_insert_eq. simpl.
  repeat split; try done.
  - intros p Hp. now apply lookup_insert_ne.
  - intros p o Hp Ho _. rewrite lookup_insert_ne by done. now rewrite Ho.
Qed.

Lemma assign_distinct (σ : heap T) (this other : positive)
    (t o : CudaSurface3DBase) :
  this ≠ other →
  objects σ !! this = Some t → objects σ !! other = Some o →
  assign this other σ
  = Some (Heap (<[this := o]> (objects σ))
               (release (acquire (gpu σ) (dev_array (surface o)))
                        (dev_array (surface t)))).
Proof.
  intros Hne Ht Ho. unfold assign. rewrite decide_False by done.
  rewrite Ho, Ht. simpl. destruct o as [[] ?]. reflexivity.
Qed.

(** C2. After the instance assignment [b = a] the object [b] holds
    the surface handle and the boundary mode of [a]; in every state of
    the device each [set] through one writes what the same [set] through
    the other writes and each [get] through one reads what the same
    [get] through the other reads, at every coordinate; the allocation
    that backed [a] backs both afterwards; and a [set(x, y, z, v)]
    inside the extents through either of them is read back as [v] by
    [get(x, y, z)] through the other. *)
Theorem assignment_shares_writes (D : Derived) (σ : heap T)
    (pa pb : positive) (a b : CudaSurface3DBase) :
  objects σ !! pa = Some a → objects σ !! pb = Some b →
  ∃ σ' b',
    assign pb pa σ = Some σ'
    ∧ objects σ' !! pa = Some a ∧ objects σ' !! pb = Some b'
    ∧ surface b' = surface a
    ∧ boundary_mode_ b' = boundary_mode_ a
    ∧ (∀ dev x y z v, set D b' dev x y z v = set D a dev x y z v)
    ∧ (∀ dev x y z, get D a dev x y z = get D b' dev x y z)
    ∧ (backs D (gpu σ) a = true →
       backs D (gpu σ') a = true ∧ backs D (gpu σ') b' = true)
    ∧ (∀ dev x y z v,
         backs D dev a = true → row_fits a → in_extent a x y z →
         (∃ dev', set D b' dev x y z v = Some dev'
                  ∧ get D a dev' x y z = Some v)
         ∧ (∃ dev', set D a dev x y z v = Some dev'
                    ∧ get D b' dev' x y z = Some v)).
Proof.
  intros Ha Hb.
  assert (∀ dev x y z v,
            backs D dev a = true → row_fits a → in_extent a x y z →
            (∃ dev', set D a dev x y z v = Some dev'
                     ∧ get D a dev' x y z = Some v)
            ∧ (∃ dev', set D a dev x y z v = Some dev'
                       ∧ get D a dev' x y z = Some v)) as Hvis.
  { intros dev x y z v Hdev Hfit Hin.
    destruct (shared_write_visible D dev a a x y z v eq_refl Hdev Hfit Hin)
      as (dev' & Hset & Hget & _).
    split; exists dev'; done. }
  destruct (decide (pb = pa)) as [-> | Hne].
  - assert (b = a) as -> by congruence.
    exists σ, a. rewrite assign_same_address.
    do 7 (split; [done |]). split; [done | exact Hvis].
  - exists (Heap (<[pb := a]> (objects σ))
              (release (acquire (gpu σ) (dev_array (surface a)))
                       (dev_array (surface b)))), a.
    rewrite (assign_distinct σ pb pa b a) by done. simpl.
    rewrite lookup_insert_ne, lookup_insert_eq by done.
    do 7 (split; [done |]). split; [| exact Hvis].
    intros Hbacks. pose proof Hbacks as Hinv.
    apply backs_inv in Hinv as (s & Hs & Hr & _).
    destruct (reassign_keeps_source (gpu σ) (dev_array (surface a))
                (dev_array (surface b)) s Hs Hr) as (s' & Hs' & Harr & Hr').
    assert (backs D (release (acquire (gpu σ) (dev_array (surface a)))
                       (dev_array (surface b))) a = true) as Hbacks'.
    { by apply (backs_same_array D (gpu σ) _ a a s s'). }
    done.
Qed.

(** One shallow copy: the target holds the handle of the source, no
    other object changes, no array is created or altered, and the
    allocation of the source stays alive with its array. *)
Lemma shallow_copy_step (o : shallow_op) (σ σ' : heap T) :
  run_op o σ = Some σ' →
  (∀ s, objects σ !! source o = Some s →
        objects σ' !! source o = Some s
        ∧ ∃ c, objects σ' !! target o = Some c ∧ surface c = surface s)
  ∧ (∀ p, p ≠ target o → objects σ' !! p = objects σ !! p)
  ∧ no_new_arrays (gpu σ) (gpu σ')
  ∧ handles_from σ σ'
  ∧ (∀ s a, objects σ !! source o = Some s →
            surfaces (gpu σ) !! dev_array (surface s) = Some a →
            (0 < refcount a)%nat →
            ∃ a', surfaces (gpu σ') !! dev_array (surface s) = Some a'
                  ∧ array a' = array a ∧ (0 < refcount a')%nat).
Proof.
  destruct o as [new other | this other]; simpl.
  - destruct (objects σ !! new) eqn:Hnew; [done |].
    destruct (objects σ !! other) as [src |] eqn:Hsrc; [| done]. simpl.
    intros [= <-]. simpl.
    assert (new ≠ other) as Hne by congruence.
    split; [| split; [| split; [| split]]].
    + intros s [= <-]. rewrite lookup_insert_ne by done.
      split; [done |]. rewrite lookup_insert_eq. eauto.
    + intros p Hp. now apply lookup_insert_ne.
    + apply acquire_no_new_arrays.
    + intros p c. simpl. destruct (decide (new = p)) as [<- | Hp].
      * rewrite lookup_insert_eq. intros [= <-]. eauto.
      * rewrite lookup_insert_ne by done. eauto.
    + intros s a [= <-] Ha Hr. rewrite acquire_lookup, decide_True by done.
      rewrite Ha. simpl. eexists. split; [done |]. simpl. split; [done | lia].
  - destruct (decide (this = other)) as [-> | Hne].
    + rewrite assign_same_address. intros [= <-].
      split; [eauto |]. split; [done |].
      split; [apply no_new_arrays_refl |]. split; [| eauto].
      intros p c Hc. eauto.
    + destruct (objects σ !! other) as [src |] eqn:Hsrc;
        [| unfold assign; rewrite decide_False, Hsrc by done; done].
      destruct (objects σ !! this) as [t |] eqn:Ht;
        [| unfold assign; rewrite decide_False, Hsrc, Ht by done; done].
      rewrite (assign_distinct σ this other t src) by done.
      intros [= <-]. simpl.
      split; [| split; [| split; [| split]]].
      * intros s [= <-]. rewrite lookup_insert_ne by done.
        split; [done |]. rewrite lookup_insert_eq. eauto.
      * intros p Hp. now apply lookup_insert_ne.
      * eapply no_new_arrays_trans;
          [apply acquire_no_new_arrays | apply release_no_new_arrays].
      * intros p c. simpl. destruct (decide (this = p)) as [<- | Hp].
        -- rewrite lookup_insert_eq. intros [= <-]. eauto.
        -- rewrite lookup_insert_ne by done. eauto.
      * intros s a [= <-] Ha Hr. by apply reassign_keeps_source.
Qed.

Lemma handles_from_trans (σ1 σ2 σ3 : heap T) :
  handles_from σ1 σ2 → handles_from σ2 σ3 → handles_from σ1 σ3.
Proof.
  intros H12 H23 p c Hc.
  destruct (H23 p c Hc) as (q & s & Hs & Heq).
  destruct (H12 q s Hs) as (r & u & Hu & Heq').
  exists r, u. split; [done | congruence].
Qed.

(** Along any sequence of shallow copies no array is created or
    altered and no object comes to hold a handle that no object held at
    the start. *)
Lemma shallow_copies_invariant (ops : list shallow_op) (σ σ' : heap T) :
  run_ops ops σ = Some σ' →
  no_new_arrays (gpu σ) (gpu σ') ∧ handles_from σ σ'.
Proof.
  revert σ. induction ops as [| o ops IH]; intros σ; simpl.
  - intros [= <-]. split; [apply no_new_arrays_refl |].
    intros p c Hc. eauto.
  - destruct (run_op o σ) as [σ1 |] eqn:Hstep; [| done]. simpl.
    intros Hrest.
    destruct (shallow_copy_step o σ σ1 Hstep) as (_ & _ & Harr & Hfrom & _).
    destruct (IH σ1 Hrest) as [Harr' Hfrom'].
    split.
    + by eapply no_new_arrays_trans.
    + by eapply handles_from_trans.
Qed.

End Assignment.

(** ** The device-side accessors *)

Section Accessors.
Context {T : Type} `{Scalar T}.

Lemma surf_read_out_of_range (arr : cudaArray T) (xb y z : Z) :
  in_range arr xb y z = false →
  surf_read arr xb y z cudaBoundaryModeZero = Some zero.
Proof. intros Hr. unfold surf_read. now rewrite Hr. Qed.

Lemma get_zero_mode_out_of_range (D : Derived) (dev : device T)
    (a : CudaSurface3DBase) (s : slot T) (x y z : Z) :
  surfaces dev !! dev_array (surface a) = Some s →
  layered (array s) = IS_LAYERED D →
  boundary_mode_ a = cudaBoundaryModeZero →
  in_range (array s) (byte_offset x) y z = false →
  get D a dev x y z = Some zero.
Proof.
  intros Hs Hl Hm Hr.
  leaf_cases D; rewrite Hs; simpl; rewrite Hl, Hm;
    now apply surf_read_out_of_range.
Qed.

(** C5 (amended). Under [cudaBoundaryModeZero], for both leaf classes,
    [get(x, y, z)] on a backed instance at a coordinate outside the
    declared extents never fails. It returns zero, unless [y] and [z]
    lie inside their extents and the byte offset [sizeof(T) * x],
    narrowed to an [int], lies in a row of the array: then it returns
    the element stored at that wrapped offset, the element
    [to_int(sizeof(T) * x) / sizeof(T)] of the row [(y, z)]. *)
Theorem zero_mode_read_out_of_extent (D : Derived) (dev : device T)
    (a : CudaSurface3DBase) (x y z : Z) :
  backs D dev a = true →
  boundary_mode_ a = cudaBoundaryModeZero →
  ¬ in_extent a x y z →
  (¬ wraps_into_extent a x y z → get D a dev x y z = Some zero)
  ∧ (wraps_into_extent a x y z →
     ∃ e, get D a dev x y z = Some e
          ∧ element dev a
              (linear_index a (to_int (sizeof * x) / sizeof) y z)
            = Some e).
Proof.
  intros Hb Hm Hout.
  apply backs_inv in Hb as (s & Hs & _ & Hw & Hh & Hd & Hl & Hlen).
  pose proof sizeof_pos as Hpos.
  split.
  - intros Hnot.
    apply (get_zero_mode_out_of_range D dev a s); try done.
    unfold in_range. rewrite Hw, Hh, Hd, byte_offset_to_int.
    apply not_true_iff_false.
    rewrite !andb_true_iff, !Z.leb_le, !Z.ltb_lt.
    intros (((((Hx0 & Hx1) & Hy0) & Hy1) & Hz0) & Hz1).
    apply Hnot. unfold wraps_into_extent. lia.
  - intros ((Hx0 & Hx1) & Hy & Hz).
    assert (0 ≤ to_int (sizeof * x) / sizeof < width_ (Base a)) as Hq.
    { split; [apply Z.div_pos; lia |].
      apply Z.div_lt_upper_bound; lia. }
    assert (in_range (array s) (byte_offset x) y z = true) as Hr.
    { unfold in_range. rewrite Hw, Hh, Hd, byte_offset_to_int.
      rewrite !andb_true_iff, !Z.leb_le, !Z.ltb_lt. lia. }
    rewrite (get_in_range D dev a s) by done.
    unfold element. rewrite Hs. simpl.
    unfold texel_index, linear_index.
    rewrite Hw, Hh, byte_offset_to_int.
    pose proof (linear_index_bound _ _ _ _ _ _ Hq Hy Hz) as Hidx.
    destruct (lookup_lt_is_Some_2 (texels (array s))
                (Z.to_nat ((z * height_ (Base a) + y) * width_ (Base a)
                           + to_int (sizeof * x) / sizeof)))
      as [e He]; [lia |].
    exists e. done.
Qed.

(** C6. The accessors of [CudaSurface2DArray<T>] are the layered-2D
    intrinsics and those of [CudaSurface3D<T>] the 3D intrinsics, at
    every coordinate (no check of their own): the surface object and
    the boundary mode of the instance are forwarded, [y] and [z] are
    passed as they are and [x] becomes the byte offset [sizeof(T) * x]
    (as an [int]). Inside the extents both leaves address the element
    of linear index [(z * height + y) * width + x]: a [set] there is
    read back by [get] and changes the value read at no other
    coordinate of the extents. *)
Theorem leaf_accessors_pass_through (dev : device T)
    (a : CudaSurface3DBase) (x y z : Z) (v : T) :
  CudaSurface2DArray_get a dev x y z
  = surf2DLayeredread dev (get_cuda_api_object (surface a))
      (to_int (sizeof * x)) y z (boundary_mode_ a)
  ∧ CudaSurface2DArray_set a dev x y z v
    = surf2DLayeredwrite v dev (get_cuda_api_object (surface a))
        (to_int (sizeof * x)) y z (boundary_mode_ a)
  ∧ CudaSurface3D_get a dev x y z
    = surf3Dread dev (get_cuda_api_object (surface a))
        (to_int (sizeof * x)) y z (boundary_mode_ a)
  ∧ CudaSurface3D_set a dev x y z v
    = surf3Dwrite v dev (get_cuda_api_object (surface a))
        (to_int (sizeof * x)) y z (boundary_mode_ a)
  ∧ (∀ D, backs D dev a = true → row_fits a → in_extent a x y z →
          get D a dev x y z = element dev a (linear_index a x y z)
          ∧ ∃ dev',
              set D a dev x y z v = Some dev'
              ∧ get D a dev' x y z = Some v
              ∧ ∀ x' y' z',
                  in_extent a x' y' z' → (x', y', z') ≠ (x, y, z) →
                  get D a dev' x' y' z' = get D a dev x' y' z').
Proof.
  unfold CudaSurface2DArray_get, CudaSurface2DArray_set, CudaSurface3D_get,
    CudaSurface3D_set.
  rewrite byte_offset_to_int.
  do 4 (split; [reflexivity |]).
  intros D Hb Hfit Hin. split.
  - now apply get_in_extent.
  - destruct (shared_write_visible D dev a a x y z v eq_refl Hb Hfit Hin)
      as (dev' & Hset & Hget & Hbacks & Hother).
    exists dev'. repeat split; try done.
    intros x' y' z' Hin' Hne.
    rewrite !get_in_extent by (rewrite ?Hbacks; done).
    apply Hother. intros Heq. apply Hne.
    destruct Hin as (Hx & Hy & Hz), Hin' as (Hx' & Hy' & Hz').
    pose proof (linear_index_bound _ _ _ _ _ _ Hx Hy Hz).
    pose proof (linear_index_bound _ _ _ _ _ _ Hx' Hy' Hz').
    unfold linear_index in Heq. apply Z2Nat.inj in Heq; [| lia | lia].
    destruct (linear_index_inj _ _ _ _ _ _ _ _ _ Hx' Hy' Hz' Hx Hy Hz Heq)
      as (-> & -> & ->).
    done.
Qed.

End Accessors.

(** ** Transfers between host memory and the device *)

Section Transfers.
Context {T : Type} `{Scalar T}.

Lemma transfer_size_mod (a : CudaSurface3DBase) :
  transfer_size a
  = (sizeof * (width_ (Base a) * height_ (Base a) * depth_ (Base a)))
    mod 2 ^ 64.
Proof.
  unfold transfer_size, to_size_t.
  rewrite Z.mul_mod_idemp_l by lia.
  rewrite <- Z.mul_assoc.
  rewrite Z.mul_mod_idemp_l by lia.
  f_equal. lia.
Qed.

Lemma transfer_size_exact (D : Derived) (dev : device T)
    (a : CudaSurface3DBase) :
  backs D dev a = true → array_fits a →
  transfer_size a
  = sizeof * (width_ (Base a) * height_ (Base a) * depth_ (Base a))
  ∧ Z.to_nat (transfer_size a / sizeof) = element_count a.
Proof.
  intros Hb Hfit. unfold array_fits in Hfit.
  apply backs_inv in Hb as (s & _ & _ & _ & _ & _ & _ & Hlen).
  pose proof sizeof_pos.
  assert (transfer_size a
          = sizeof * (width_ (Base a) * height_ (Base a) * depth_ (Base a)))
    as Heq.
  { rewrite transfer_size_mod. apply Z.mod_small. nia. }
  split; [done |]. now rewrite Heq, scaled_div.
Qed.

Lemma splice_all (l src : list T) :
  length src = length l → splice l 0 src = src.
Proof.
  intros Hlen. unfold splice. simpl.
  rewrite Hlen, drop_all. apply app_nil_r.
Qed.

Lemma splice_length (l src : list T) (start : nat) :
  (start + length src ≤ length l)%nat →
  length (splice l start src) = length l.
Proof.
  intros Hle. unfold splice.
  rewrite !length_app, length_take, length_drop. lia.
Qed.

Lemma splice_lookup_before (l src : list T) (start i : nat) :
  (start + length src ≤ length l)%nat → (i < start)%nat →
  splice l start src !! i = l !! i.
Proof.
  intros Hle Hi. unfold splice.
  rewrite lookup_app_l by (rewrite length_take; lia).
  now apply lookup_take_lt.
Qed.

Lemma splice_lookup_inside (l src : list T) (start i : nat) :
  (start + length src ≤ length l)%nat → (i < length src)%nat →
  splice l start src !! (start + i)%nat = src !! i.
Proof.
  intros Hle Hi. unfold splice.
  rewrite lookup_app_r by (rewrite length_take; lia).
  rewrite length_take.
  replace (start + i - start `min` length l)%nat with i by lia.
  now apply lookup_app_l.
Qed.

Lemma splice_lookup_after (l src : list T) (start i : nat) :
  (start + length src ≤ length l)%nat → (start + length src ≤ i)%nat →
  splice l start src !! i = l !! i.
Proof.
  intros Hle Hi. unfold splice.
  rewrite lookup_app_r by (rewrite length_take; lia).
  rewrite lookup_app_r by (rewrite length_take; lia).
  rewrite lookup_drop, length_take. f_equal. lia.
Qed.

(** What [operator=(host_array)] does to a backed instance. *)
Lemma assign_host_backed (D : Derived) (dev : device T)
    (a : CudaSurface3DBase) (host : list T) (p : nat) :
  backs D dev a = true → array_fits a →
  ∃ s, surfaces dev !! dev_array (surface a) = Some s
       ∧ length (texels (array s)) = element_count a
       ∧ assign_host a dev host p
         = if decide (p + element_count a ≤ length host)%nat
           then Some (update_array dev (dev_array (surface a))
                        (with_texels (array s)
                           (take (element_count a) (drop p host)))
                        s)
           else None.
Proof.
  intros Hb Hfit.
  destruct (transfer_size_exact D dev a Hb Hfit) as [_ Hn].
  apply backs_inv in Hb as (s & Hs & _ & _ & _ & _ & _ & Hlen).
  assert (length (texels (array s)) = element_count a) as Hlen'
    by (unfold element_count; lia).
  exists s. split; [done |]. split; [done |].
  unfold assign_host, cudaMemcpyToArray. rewrite Hs, Hn. simpl.
  rewrite Z.div_0_l by (pose proof sizeof_pos; lia). simpl.
  rewrite decide_True by lia.
  case_decide as Hhost; [| done]. simpl.
  rewrite splice_all; [done |].
  rewrite length_take, length_drop. lia.
Qed.

(** What [copyTo(host_array)] does on a backed instance. *)
Lemma copyTo_backed (D : Derived) (dev : device T)
    (a : CudaSurface3DBase) (host : list T) (p : nat) :
  backs D dev a = true → array_fits a →
  ∃ s, surfaces dev !! dev_array (surface a) = Some s
       ∧ length (texels (array s)) = element_count a
       ∧ copyTo a dev host p
         = if decide (p + element_count a ≤ length host)%nat
           then Some (splice host p (texels (array s)))
           else None.
Proof.
  intros Hb Hfit.
  destruct (transfer_size_exact D dev a Hb Hfit) as [_ Hn].
  apply backs_inv in Hb as (s & Hs & _ & _ & _ & _ & _ & Hlen).
  assert (length (texels (array s)) = element_count a) as Hlen'
    by (unfold element_count; lia).
  exists s. split; [done |]. split; [done |].
  unfold copyTo, cudaMemcpyFromArray. rewrite Hs, Hn. simpl.
  rewrite Z.div_0_l by (pose proof sizeof_pos; lia). simpl.
  rewrite decide_True by lia.
  case_decide as Hhost; [| done]. simpl.
  rewrite drop_0, <- Hlen', firstn_all. done.
Qed.

Lemma splice_read_back (l src : list T) (start : nat) :
  (start + length src ≤ length l)%nat →
  take (length src) (drop start (splice l start src)) = src.
Proof.
  intros Hle. unfold splice.
  rewrite drop_app_length' by (rewrite length_take; lia).
  now rewrite take_app_length.
Qed.



(** C4. On a backed instance whose byte size is a [size_t], the size
    passed to both copies is [sizeof(Scalar) * width * height * depth]
    bytes, that is [width * height * depth] elements, computed from
    the fields of the instance alone. [operator=(host_array)] makes
    the array exactly the elements [host_array[0 .. n)] and touches no
    other allocation; [copyTo(host_array)] overwrites exactly the
    elements [host_array[0 .. n)] with the array and leaves the rest
    of host memory as it was; neither checks anything about the host
    buffer: where host memory ends before [n] elements, the copy
    faults. *)
Theorem host_transfers_move_the_extents (D : Derived) (dev : device T)
    (a : CudaSurface3DBase) (host : list T) (p : nat) :
  backs D dev a = true → array_fits a →
  transfer_size a
  = sizeof * (width_ (Base a) * height_ (Base a) * depth_ (Base a))
  ∧ Z.to_nat (transfer_size a / sizeof) = element_count a
  ∧ ((p + element_count a ≤ length host)%nat →
     (∃ dev',
        assign_host a dev host p = Some dev'
        ∧ (∀ i, element dev' a i
                = take (element_count a) (drop p host) !! i)
        ∧ (∀ h, h ≠ dev_array (surface a) →
                surfaces dev' !! h = surfaces dev !! h)
        ∧ backs D dev' a = true)
     ∧ (∃ host',
          copyTo a dev host p = Some host'
          ∧ length host' = length host
          ∧ (∀ i, (i < p)%nat → host' !! i = host !! i)
          ∧ (∀ i, (i < element_count a)%nat →
                  host' !! (p + i)%nat = element dev a i)
          ∧ (∀ i, (p + element_count a ≤ i)%nat →
                  host' !! i = host !! i)))
  ∧ ((length host < p + element_count a)%nat →
     assign_host a dev host p = None ∧ copyTo a dev host p = None).
Proof.
  intros Hb Hfit.
  destruct (transfer_size_exact D dev a Hb Hfit) as [Hbytes Hn].
  destruct (assign_host_backed D dev a host p Hb Hfit)
    as (s & Hs & Hlen & Hassign).
  destruct (copyTo_backed D dev a host p Hb Hfit)
    as (s' & Hs' & _ & Hcopy).
  assert (s' = s) as -> by congruence.
  split; [done |]. split; [done |]. split.
  - intros Hhost.
    rewrite decide_True in Hassign by done.
    rewrite decide_True in Hcopy by done.
    split.
    + eexists. split; [exact Hassign |]. split; [| split].
      * intros i. unfold element, update_array. simpl.
        now rewrite lookup_insert_eq.
      * intros h Hh. unfold update_array. simpl.
        now apply lookup_insert_ne.
      * rewrite backs_update_array; [done | done |].
        rewrite length_take, length_drop. lia.
    + eexists. split; [exact Hcopy |].
      split; [apply splice_length; lia |].
      split; [| split].
      * intros i Hi. apply splice_lookup_before; lia.
      * intros i Hi. unfold element. rewrite Hs. simpl.
        apply splice_lookup_inside; lia.
      * intros i Hi. apply splice_lookup_after; lia.
  - intros Hshort.
    rewrite decide_False in Hassign by lia.
    rewrite decide_False in Hcopy by lia.
    done.
Qed.


End Transfers.

(** ** The theorems at concrete inputs *)

Lemma assignment_shares_writes_witness :
  ∃ σ' b',
    assign 2 1 two_arrays = Some σ'
    ∧ objects σ' !! 1%positive = Some (cube cudaBoundaryModeZero)
    ∧ objects σ' !! 2%positive = Some b'
    ∧ surface b' = surface (cube cudaBoundaryModeZero)
    ∧ boundary_mode_ b' = boundary_mode_ (cube cudaBoundaryModeZero)
    ∧ (∀ dev x y z v,
         set CudaSurface3D b' dev x y z v
         = set CudaSurface3D (cube cudaBoundaryModeZero) dev x y z v)
    ∧ (∀ dev x y z,
         get CudaSurface3D (cube cudaBoundaryModeZero) dev x y z
         = get CudaSurface3D b' dev x y z)
    ∧ (backs CudaSurface3D (gpu two_arrays) (cube cudaBoundaryModeZero)
       = true →
       backs CudaSurface3D (gpu σ') (cube cudaBoundaryModeZero) = true
       ∧ backs CudaSurface3D (gpu σ') b' = true)
    ∧ (∀ dev x y z v,
         backs CudaSurface3D dev (cube cudaBoundaryModeZero) = true →
         row_fits (cube cudaBoundaryModeZero) →
         in_extent (cube cudaBoundaryModeZero) x y z →
         (∃ dev', set CudaSurface3D b' dev x y z v = Some dev'
                  ∧ get CudaSurface3D (cube cudaBoundaryModeZero) dev' x y z
                    = Some v)
         ∧ (∃ dev', set CudaSurface3D (cube cudaBoundaryModeZero) dev x y z v
                    = Some dev'
                    ∧ get CudaSurface3D b' dev' x y z = Some v)).
Proof.
  apply (assignment_shares_writes CudaSurface3D two_arrays 1 2
           (cube cudaBoundaryModeZero) dot).
  - reflexivity.
  - reflexivity.
Defined.

(** The same assignment, run: object 2 now holds handle 1, the array of
    handle 2 is released, and a write through object 2 is read through
    object 1. *)
Lemma assignment_then_write_runs :
  assign 2 1 two_arrays
  = Some (Heap {[ 1%positive := cube cudaBoundaryModeZero;
                  2%positive := cube cudaBoundaryModeZero ]}
               (Device 4064
                  {[ 1%positive :=
                       Slot 2 (CudaArray 2 2 2 false
                                 [1; 2; 3; 4; 5; 6; 7; 8]) ]}))
  ∧ (dev' ← set CudaSurface3D (cube cudaBoundaryModeZero)
              (cube_device CudaSurface3D 2 [1; 2; 3; 4; 5; 6; 7; 8])
              1 1 0 42;
     get CudaSurface3D (cube cudaBoundaryModeZero) dev' 1 1 0)
    = Some 42.
Proof. split; reflexivity. Qed.

Lemma host_transfers_move_the_extents_witness :
  transfer_size (cube cudaBoundaryModeZero) = 32
  ∧ element_count (cube cudaBoundaryModeZero) = 8%nat
  ∧ assign_host (cube cudaBoundaryModeZero) (gpu two_arrays)
      [0; 11; 12; 13; 14; 15; 16; 17; 18; 0] 1
    = Some (Device 4060
              {[ 1%positive :=
                   Slot 1 (CudaArray 2 2 2 false
                             [11; 12; 13; 14; 15; 16; 17; 18]);
                 2%positive := Slot 1 (CudaArray 1 1 1 false [9]) ]})
  ∧ copyTo (cube cudaBoundaryModeZero) (gpu two_arrays)
      [0; 11; 12; 13; 14; 15; 16; 17; 18; 0] 1
    = Some [0; 1; 2; 3; 4; 5; 6; 7; 8; 0]
  ∧ assign_host (cube cudaBoundaryModeZero) (gpu two_arrays) [11; 12; 13] 0
    = None.
Proof.
  assert (backs CudaSurface3D (gpu two_arrays) (cube cudaBoundaryModeZero)
          = true) as Hb by reflexivity.
  assert (array_fits (cube cudaBoundaryModeZero)) as Hfit
    by (unfold array_fits; simpl; lia).
  pose proof (host_transfers_move_the_extents CudaSurface3D (gpu two_arrays)
                (cube cudaBoundaryModeZero)
                [0; 11; 12; 13; 14; 15; 16; 17; 18; 0] 1 Hb Hfit)
    as (Hbytes & _ & _ & _).
  pose proof (host_transfers_move_the_extents CudaSurface3D (gpu two_arrays)
                (cube cudaBoundaryModeZero) [11; 12; 13] 0 Hb Hfit)
    as (_ & _ & _ & Hshort).
  split; [exact Hbytes |].
  split; [reflexivity |].
  split; [reflexivity |].
  split; [reflexivity |].
  apply Hshort. unfold element_count. simpl. lia.
Defined.

Lemma zero_mode_read_out_of_extent_witness :
  get CudaSurface2DArray (cube cudaBoundaryModeZero)
    (cube_device CudaSurface2DArray 1 [1; 2; 3; 4; 5; 6; 7; 8]) (2 ^ 29) 0 0
  = Some zero
  ∧ ∃ e,
      get CudaSurface3D (cube cudaBoundaryModeZero)
        (cube_device CudaSurface3D 1 [1; 2; 3; 4; 5; 6; 7; 8])
        (2 ^ 30 + 1) 1 0 = Some e
      ∧ element (cube_device CudaSurface3D 1 [1; 2; 3; 4; 5; 6; 7; 8])
          (cube cudaBoundaryModeZero)
          (linear_index (cube cudaBoundaryModeZero)
             (to_int (sizeof * (2 ^ 30 + 1)) / sizeof) 1 0)
        = Some e.
Proof.
  split.
  - apply (zero_mode_read_out_of_extent CudaSurface2DArray
             (cube_device CudaSurface2DArray 1 [1; 2; 3; 4; 5; 6; 7; 8])
             (cube cudaBoundaryModeZero) (2 ^ 29) 0 0).
    + reflexivity.
    + reflexivity.
    + unfold in_extent. simpl. lia.
    + unfold wraps_into_extent. vm_compute. intros [[Hlo _] _]. by apply Hlo.
  - apply (zero_mode_read_out_of_extent CudaSurface3D
             (cube_device CudaSurface3D 1 [1; 2; 3; 4; 5; 6; 7; 8])
             (cube cudaBoundaryModeZero) (2 ^ 30 + 1) 1 0).
    + reflexivity.
    + reflexivity.
    + unfold in_extent. simpl. lia.
    + unfold wraps_into_extent. vm_compute. repeat split; discriminate.
Defined.

(** The two reads of the witness, evaluated: zero at [x = 2^29], whose
    byte offset [2^31] is [-2^31] as an [int], and the 4 stored at
    [(1, 1, 0)] at [x = 2^30 + 1], whose byte offset is [4] as an
    [int]. *)
Lemma zero_mode_reads_evaluated :
  get CudaSurface2DArray (cube cudaBoundaryModeZero)
    (cube_device CudaSurface2DArray 1 [1; 2; 3; 4; 5; 6; 7; 8]) (2 ^ 29) 0 0
  = Some 0
  ∧ get CudaSurface3D (cube cudaBoundaryModeZero)
      (cube_device CudaSurface3D 1 [1; 2; 3; 4; 5; 6; 7; 8])
      (2 ^ 30 + 1) 1 0
    = Some 4
  ∧ get CudaSurface3D (cube cudaBoundaryModeZero)
      (cube_device CudaSurface3D 1 [1; 2; 3; 4; 5; 6; 7; 8]) 1 1 0
    = Some 4.
Proof. repeat split; reflexivity. Qed.

(** C5 as stated fails: the array [cube] is allocated on the empty
    device, [set(0, 0, 0, 7)] stores 7, and the zero-mode read at
    [x = 2^30], which is outside the extent 2, has byte offset
    [4 * 2^30 = 2^32], that is 0 as an [int]: it returns the 7 stored at
    [(0, 0, 0)] instead of zero. *)
Lemma zero_mode_read_wraps_around :
  CudaSurface3DBase_new CudaSurface3D empty_device 2 2 2 (Dim3 8 8 1) 0
    cudaBoundaryModeZero
  = inr (cube_device CudaSurface3D 1 [0; 0; 0; 0; 0; 0; 0; 0],
         cube cudaBoundaryModeZero)
  ∧ set CudaSurface3D (cube cudaBoundaryModeZero)
      (cube_device CudaSurface3D 1 [0; 0; 0; 0; 0; 0; 0; 0]) 0 0 0 7
    = Some (cube_device CudaSurface3D 1 [7; 0; 0; 0; 0; 0; 0; 0])
  ∧ backs CudaSurface3D (cube_device CudaSurface3D 1 [7; 0; 0; 0; 0; 0; 0; 0])
      (cube cudaBoundaryModeZero) = true
  ∧ boundary_mode_ (cube cudaBoundaryModeZero) = cudaBoundaryModeZero
  ∧ - 2 ^ 31 ≤ 2 ^ 30 < 2 ^ 31
  ∧ ¬ in_extent (cube cudaBoundaryModeZero) (2 ^ 30) 0 0
  ∧ get CudaSurface3D (cube cudaBoundaryModeZero)
      (cube_device CudaSurface3D 1 [7; 0; 0; 0; 0; 0; 0; 0]) (2 ^ 30) 0 0
    = Some 7
  ∧ get CudaSurface3D (cube cudaBoundaryModeZero)
      (cube_device CudaSurface3D 1 [7; 0; 0; 0; 0; 0; 0; 0]) (2 ^ 30) 0 0
    ≠ Some zero.
Proof.
  assert (¬ in_extent (cube cudaBoundaryModeZero) (2 ^ 30) 0 0) as Hout
    by (unfold in_extent; simpl; lia).
  split; [reflexivity |]. split; [reflexivity |]. split; [reflexivity |].
  split; [reflexivity |]. split; [lia |]. split; [exact Hout |].
  split; [reflexivity | discriminate].
Qed.

(** The layered leaf wraps around in the same way. *)
Lemma layered_read_wraps_around :
  get CudaSurface2DArray (cube cudaBoundaryModeZero)
    (cube_device CudaSurface2DArray 1 [7; 0; 0; 0; 0; 0; 0; 0]) (2 ^ 30) 0 0
  = Some 7.
Proof. reflexivity. Qed.

(** [emptyCopy()] at the instance [cube], for either leaf class. *)
Lemma emptyCopy_of_cube (D : Derived) :
  emptyCopy (Dim3 8 8 1) D (cube_device D 1 [1; 2; 3; 4; 5; 6; 7; 8])
    (cube cudaBoundaryModeZero)
  = None.
Proof. reflexivity. Qed.

Lemma leaf_accessors_pass_through_witness :
  get CudaSurface2DArray (cube cudaBoundaryModeTrap)
    (cube_device CudaSurface2DArray 1 [1; 2; 3; 4; 5; 6; 7; 8]) 1 0 1
  = element (cube_device CudaSurface2DArray 1 [1; 2; 3; 4; 5; 6; 7; 8])
      (cube cudaBoundaryModeTrap) 5
  ∧ ∃ dev',
      set CudaSurface2DArray (cube cudaBoundaryModeTrap)
        (cube_device CudaSurface2DArray 1 [1; 2; 3; 4; 5; 6; 7; 8]) 1 0 1 42
      = Some dev'
      ∧ get CudaSurface2DArray (cube cudaBoundaryModeTrap) dev' 1 0 1
        = Some 42
      ∧ ∀ x' y' z',
          in_extent (cube cudaBoundaryModeTrap) x' y' z' →
          (x', y', z') ≠ (1, 0, 1) →
          get CudaSurface2DArray (cube cudaBoundaryModeTrap) dev' x' y' z'
          = get CudaSurface2DArray (cube cudaBoundaryModeTrap)
              (cube_device CudaSurface2DArray 1 [1; 2; 3; 4; 5; 6; 7; 8])
              x' y' z'.
Proof.
  destruct (leaf_accessors_pass_through
              (cube_device CudaSurface2DArray 1 [1; 2; 3; 4; 5; 6; 7; 8])
              (cube cudaBoundaryModeTrap) 1 0 1 42)
    as (_ & _ & _ & _ & Haddr).
  apply (Haddr CudaSurface2DArray).
  - reflexivity.
  - unfold row_fits. simpl. lia.
  - unfold in_extent. simpl. lia.
Defined.

(** The same sequence, run: three objects on the one allocation of
    handle 1, counted three times; the array of handle 2 is released. *)
Lemma shallow_copies_run :
  (σ1 ← run_ops [copy_construct 3 1] two_arrays;
   run_op (copy_assign 2 3) σ1)
  = Some (Heap {[ 1%positive := cube cudaBoundaryModeZero;
                  2%positive := cube cudaBoundaryModeZero;
                  3%positive := cube cudaBoundaryModeZero ]}
               (Device 4064
                  {[ 1%positive :=
                       Slot 3 (CudaArray 2 2 2 false
                                 [1; 2; 3; 4; 5; 6; 7; 8]) ]})).
Proof. reflexivity. Qed.

Lemma set_boundary_mode_frame_witness :
  ∃ σ' t',
    set_boundary_mode 1 cudaBoundaryModeClamp shared_array = Some σ'
    ∧ get_boundary_mode 1 σ' = Some cudaBoundaryModeClamp
    ∧ objects σ' !! 1%positive = Some t'
    ∧ Base t' = Base (cube cudaBoundaryModeZero)
    ∧ surface t' = surface (cube cudaBoundaryModeZero)
    ∧ (∀ p, p ≠ 1%positive → objects σ' !! p = objects shared_array !! p)
    ∧ (∀ p o, p ≠ 1%positive → objects shared_array !! p = Some o →
              surface o = surface (cube cudaBoundaryModeZero) →
              get_boundary_mode p σ' = Some (boundary_mode_ o))
    ∧ gpu σ' = gpu shared_array.
Proof.
  apply (set_boundary_mode_frame shared_array 1 (cube cudaBoundaryModeZero)
           cudaBoundaryModeClamp).
  reflexivity.
Defined.

(** ** Further properties of the transfers *)

Section TransferLaws.
Context {T : Type} `{Scalar T}.

Lemma update_array_same (dev : device T) (h : positive) (s : slot T) :
  surfaces dev !! h = Some s → update_array dev h (array s) s = dev.
Proof.
  intros Hs. destruct dev as [free m], s as [n arr]. unfold update_array.
  simpl in *. f_equal. now apply insert_id.
Qed.

Lemma with_texels_id (arr : cudaArray T) : with_texels arr (texels arr) = arr.
Proof. now destruct arr. Qed.

Lemma update_array_twice (dev : device T) (h : positive) (s s' : slot T)
    (arr arr' : cudaArray T) :
  refcount s' = refcount s →
  update_array (update_array dev h arr s) h arr' s'
  = update_array dev h arr' s.
Proof.
  intros Hr. unfold update_array. simpl. rewrite Hr.
  now rewrite insert_insert_eq.
Qed.

(** The array of a backed instance after [operator=(host_array)], as a
    slot of the new device. *)
Lemma assign_host_slot (D : Derived) (dev : device T)
    (a : CudaSurface3DBase) (host : list T) (p : nat) :
  backs D dev a = true → array_fits a →
  (p + element_count a ≤ length host)%nat →
  ∃ s dev',
    surfaces dev !! dev_array (surface a) = Some s
    ∧ assign_host a dev host p = Some dev'
    ∧ dev' = update_array dev (dev_array (surface a))
               (with_texels (array s) (take (element_count a) (drop p host)))
               s
    ∧ backs D dev' a = true.
Proof.
  intros Hb Hfit Hhost.
  destruct (assign_host_backed D dev a host p Hb Hfit)
    as (s & Hs & Hlen & Hassign).
  rewrite decide_True in Hassign by done.
  exists s. eexists. split; [done |]. split; [exact Hassign |].
  split; [done |].
  rewrite backs_update_array; [done | done |].
  rewrite length_take, length_drop. lia.
Qed.

(** X1. After [operator=(host_array)] on a backed instance, [get(x, y,
    z)] inside the extents, through that instance or any other that
    holds the same handle, returns the host element
    [host_array[(z * height + y) * width + x]]. *)
Theorem upload_then_get (D : Derived) (dev : device T)
    (a c : CudaSurface3DBase) (host : list T) (p : nat) (x y z : Z) :
  backs D dev a = true → array_fits a → row_fits a →
  surface c = surface a →
  (p + element_count a ≤ length host)%nat →
  in_extent a x y z →
  ∃ dev', assign_host a dev host p = Some dev'
          ∧ get D c dev' x y z = host !! (p + linear_index a x y z)%nat.
Proof.
  intros Hb Hfit Hrow Hsurf Hhost Hin.
  destruct (assign_host_slot D dev a host p Hb Hfit Hhost)
    as (s & dev' & Hs & Hassign & -> & Hb').
  eexists. split; [exact Hassign |].
  pose proof Hb as Hinv.
  apply backs_inv in Hinv as (s0 & Hs0 & _ & Hw & Hh & Hd & Hl & Hlen).
  assert (s0 = s) as -> by congruence.
  set (arr' := with_texels (array s)
                 (take (element_count a) (drop p host))).
  destruct (in_extent_in_range arr' a x y z Hw Hh Hd Hrow Hin) as [Hr Hi].
  rewrite (get_in_range D _ c (Slot (refcount s) arr')).
  - change (array (Slot (refcount s) arr')) with arr'. rewrite Hi.
    unfold arr'. simpl.
    assert (linear_index a x y z < element_count a)%nat as Hlt.
    { pose proof (linear_index_lt dev a s x y z Hlen Hin). 
      unfold element_count. lia. }
    rewrite lookup_take_lt by done. now rewrite lookup_drop.
  - rewrite Hsurf. unfold update_array. simpl. apply lookup_insert_eq.
  - done.
  - done.
Qed.

(** X2. After a [set(x, y, z, v)] inside the extents, [copyTo(host_array)]
    writes [v] to [host_array[(z * height + y) * width + x]] and the
    elements the array had before to the other places of the buffer. *)
Theorem set_then_copyTo (D : Derived) (dev : device T)
    (a : CudaSurface3DBase) (host : list T) (p : nat) (x y z : Z) (v : T) :
  backs D dev a = true → array_fits a → row_fits a →
  (p + element_count a ≤ length host)%nat →
  in_extent a x y z →
  ∃ dev' host',
    set D a dev x y z v = Some dev'
    ∧ copyTo a dev' host p = Some host'
    ∧ host' !! (p + linear_index a x y z)%nat = Some v
    ∧ (∀ i, (i < element_count a)%nat → i ≠ linear_index a x y z →
            host' !! (p + i)%nat = element dev a i).
Proof.
  intros Hb Hfit Hrow Hhost Hin.
  destruct (shared_write_visible D dev a a x y z v eq_refl Hb Hrow Hin)
    as (dev' & Hset & Hget & Hbacks & Hother).
  assert (backs D dev' a = true) as Hb' by now rewrite Hbacks.
  rewrite get_in_extent in Hget by done.
  destruct (copyTo_backed D dev' a host p Hb' Hfit)
    as (s' & Hs' & Hlen' & Hcopy).
  rewrite decide_True in Hcopy by done.
  exists dev'. eexists. split; [done |]. split; [exact Hcopy |].
  assert (∀ i, (i < element_count a)%nat →
               splice host p (texels (array s')) !! (p + i)%nat
               = element dev' a i) as Hread.
  { intros i Hi. unfold element. rewrite Hs'. simpl.
    apply splice_lookup_inside; lia. }
  split.
  - rewrite Hread; [done |].
    apply backs_inv in Hb as (s & _ & _ & _ & _ & _ & _ & Hlen).
    pose proof (linear_index_lt dev a s x y z Hlen Hin).
    unfold element_count. lia.
  - intros i Hi Hne. rewrite Hread by done. now apply Hother.
Qed.

(** X3. [a = src] followed by [a.copyTo(dst)] copies the first
    [width * height * depth] elements of [src] to [dst]. *)
Theorem upload_then_download (D : Derived) (dev : device T)
    (a : CudaSurface3DBase) (host : list T) (src dst : nat) :
  backs D dev a = true → array_fits a →
  (src + element_count a ≤ length host)%nat →
  (dst + element_count a ≤ length host)%nat →
  ∃ dev' host',
    assign_host a dev host src = Some dev'
    ∧ copyTo a dev' host dst = Some host'
    ∧ length host' = length host
    ∧ (∀ i, (i < element_count a)%nat →
            host' !! (dst + i)%nat = host !! (src + i)%nat)
    ∧ (∀ i, (i < dst)%nat ∨ (dst + element_count a ≤ i)%nat →
            host' !! i = host !! i).
Proof.
  intros Hb Hfit Hsrc Hdst.
  destruct (assign_host_slot D dev a host src Hb Hfit Hsrc)
    as (s & dev' & Hs & Hassign & Hdev' & Hb').
  destruct (copyTo_backed D dev' a host dst Hb' Hfit)
    as (s' & Hs' & Hlen' & Hcopy).
  rewrite decide_True in Hcopy by done.
  assert (texels (array s') = take (element_count a) (drop src host)) as Htex.
  { rewrite Hdev' in Hs'. unfold update_array in Hs'. simpl in Hs'.
    rewrite lookup_insert_eq in Hs'. by injection Hs' as <-. }
  exists dev'. eexists. split; [done |]. split; [exact Hcopy |].
  split; [apply splice_length; lia |]. split.
  - intros i Hi. rewrite splice_lookup_inside by lia.
    rewrite Htex, lookup_take_lt by done. now rewrite lookup_drop.
  - intros i [Hi | Hi].
    + apply splice_lookup_before; lia.
    + apply splice_lookup_after; lia.
Qed.

(** X4. [a.copyTo(buf)] followed by [a = buf] leaves the device exactly
    as it was. *)
Theorem download_then_upload (D : Derived) (dev : device T)
    (a : CudaSurface3DBase) (host : list T) (p : nat) :
  backs D dev a = true → array_fits a →
  (p + element_count a ≤ length host)%nat →
  ∃ host', copyTo a dev host p = Some host'
           ∧ assign_host a dev host' p = Some dev.
Proof.
  intros Hb Hfit Hhost.
  destruct (copyTo_backed D dev a host p Hb Hfit)
    as (s & Hs & Hlen & Hcopy).
  rewrite decide_True in Hcopy by done.
  eexists. split; [exact Hcopy |].
  destruct (assign_host_backed D dev a (splice host p (texels (array s))) p
              Hb Hfit) as (s' & Hs' & _ & Hassign).
  assert (s' = s) as -> by congruence.
  rewrite splice_length in Hassign by lia.
  rewrite decide_True in Hassign by done.
  rewrite <- Hlen, splice_read_back in Hassign by lia.
  now rewrite with_texels_id, update_array_same in Hassign.
Qed.

(** X5. Of two host assignments to the same instance the second one
    decides: the device after both is the device after the second
    alone. *)
Theorem last_upload_wins (D : Derived) (dev : device T)
    (a : CudaSurface3DBase) (host1 host2 : list T) (p1 p2 : nat) :
  backs D dev a = true → array_fits a →
  (p1 + element_count a ≤ length host1)%nat →
  (p2 + element_count a ≤ length host2)%nat →
  ∃ dev1 dev2,
    assign_host a dev host1 p1 = Some dev1
    ∧ assign_host a dev1 host2 p2 = Some dev2
    ∧ assign_host a dev host2 p2 = Some dev2.
Proof.
  intros Hb Hfit Hh1 Hh2.
  destruct (assign_host_slot D dev a host1 p1 Hb Hfit Hh1)
    as (s & dev1 & Hs & Hassign1 & Hdev1 & Hb1).
  destruct (assign_host_slot D dev1 a host2 p2 Hb1 Hfit Hh2)
    as (s1 & dev2 & Hs1 & Hassign12 & Hdev2 & _).
  destruct (assign_host_slot D dev a host2 p2 Hb Hfit Hh2)
    as (s' & dev2' & Hs' & Hassign2 & Hdev2' & _).
  assert (s' = s) as -> by congruence.
  exists dev1, dev2. split; [done |]. split; [done |].
  rewrite Hassign2. f_equal. rewrite Hdev2', Hdev2.
  rewrite Hdev1 in Hs1 |- *. unfold update_array in Hs1. simpl in Hs1.
  rewrite lookup_insert_eq in Hs1. injection Hs1 as <-.
  now rewrite update_array_twice.
Qed.

End TransferLaws.

(** ** Further properties of the accessors *)

Section AccessorLaws.
Context {T : Type} `{Scalar T}.

(** Both leaves, in one equation each. *)
Lemma get_unfold (D : Derived) (a : CudaSurface3DBase) (dev : device T)
    (x y z : Z) :
  get D a dev x y z
  = match surfaces dev !! dev_array (surface a) with
    | Some s =>
        if Bool.eqb (layered (array s)) (IS_LAYERED D)
        then surf_read (array s) (byte_offset x) y z (boundary_mode_ a)
        else None
    | None => None
    end.
Proof.
  leaf_cases D; destruct (surfaces dev !! dev_array (surface a)) as [s |];
    simpl; try done; by destruct (layered (array s)).
Qed.

Lemma set_unfold (D : Derived) (a : CudaSurface3DBase) (dev : device T)
    (x y z : Z) (v : T) :
  set D a dev x y z v
  = match surfaces dev !! dev_array (surface a) with
    | Some s =>
        if Bool.eqb (layered (array s)) (IS_LAYERED D)
        then arr ← surf_write v (array s) (byte_offset x) y z
                   (boundary_mode_ a);
             Some (update_array dev (dev_array (surface a)) arr s)
        else None
    | None => None
    end.
Proof.
  leaf_cases D; destruct (surfaces dev !! dev_array (surface a)) as [s |];
    simpl; try done; by destruct (layered (array s)).
Qed.

(** A write keeps the shape of the array. *)
Lemma surf_write_shape (v : T) (arr arr' : cudaArray T) (xb y z : Z)
    (mode : cudaSurfaceBoundaryMode) :
  surf_write v arr xb y z mode = Some arr' →
  ∃ l, arr' = with_texels arr l ∧ length l = length (texels arr).
Proof.
  unfold surf_write.
  destruct (in_range arr xb y z); [| destruct mode]; intros [= <-].
  - eexists. split; [done |]. apply length_insert.
  - exists (texels arr). split; [| done]. symmetry. apply with_texels_id.
  - eexists. split; [done |]. apply length_insert.
Qed.

(** X6. A [set], at any coordinate and under any boundary mode, changes
    nothing of the device but the elements of the array of its own
    instance: free memory, every other allocation, the well-formedness
    of every instance and what every instance on another allocation
    reads are as before. *)
Theorem set_frame (D : Derived) (dev dev' : device T)
    (a : CudaSurface3DBase) (x y z : Z) (v : T) :
  set D a dev x y z v = Some dev' →
  free_bytes dev' = free_bytes dev
  ∧ (∀ h, h ≠ dev_array (surface a) →
          surfaces dev' !! h = surfaces dev !! h)
  ∧ (∀ D' c, backs D' dev' c = backs D' dev c)
  ∧ (∀ D' c x' y' z',
       dev_array (surface c) ≠ dev_array (surface a) →
       get D' c dev' x' y' z' = get D' c dev x' y' z').
Proof.
  rewrite set_unfold.
  destruct (surfaces dev !! dev_array (surface a)) as [s |] eqn:Hs; [| done].
  destruct (Bool.eqb _ _); [| done].
  destruct (surf_write v (array s) (byte_offset x) y z (boundary_mode_ a))
    as [arr |] eqn:Hw; [| done].
  simpl. intros [= <-].
  destruct (surf_write_shape _ _ _ _ _ _ _ Hw) as (l & -> & Hlen).
  split; [done |]. split; [| split].
  - intros h Hh. unfold update_array. simpl. now apply lookup_insert_ne.
  - intros D' c. now apply backs_update_array.
  - intros D' c x' y' z' Hne. rewrite !get_unfold.
    unfold update_array. simpl. now rewrite lookup_insert_ne.
Qed.

(** X7. Of two [set]s at the same coordinate through the same instance
    the second one decides, at every coordinate and under every
    boundary mode. *)
Theorem last_write_wins (D : Derived) (dev : device T)
    (a : CudaSurface3DBase) (x y z : Z) (v1 v2 : T) :
  (dev1 ← set D a dev x y z v1; set D a dev1 x y z v2)
  = set D a dev x y z v2.
Proof.
  rewrite (set_unfold D a dev x y z v1), (set_unfold D a dev x y z v2).
  destruct (surfaces dev !! dev_array (surface a)) as [s |] eqn:Hs; [| done].
  destruct (Bool.eqb (layered (array s)) (IS_LAYERED D)) eqn:Hl; [| done].
  unfold surf_write.
  destruct (in_range (array s) (byte_offset x) y z) eqn:Hr;
    [| destruct (boundary_mode_ a) eqn:Hm]; simpl; try done;
    rewrite set_unfold; unfold update_array at 1; simpl;
    rewrite lookup_insert_eq; simpl; rewrite ?Hl;
    unfold surf_write;
    change (in_range (with_texels (array s) ?l) ?xb ?yy ?zz)
      with (in_range (array s) xb yy zz);
    rewrite ?Hr, ?Hm; simpl;
    rewrite ?update_array_twice by done.
  - unfold with_texels. simpl.
    change (texel_index (CudaArray ?w ?h ?d ?ly ?l) ?xb ?yy ?zz)
      with (texel_index (array s) xb yy zz).
    now rewrite list_insert_insert_eq.
  - done.
  - unfold with_texels. simpl.
    change (clamped_index (CudaArray ?w ?h ?d ?ly ?l) ?xb ?yy ?zz)
      with (clamped_index (array s) xb yy zz).
    now rewrite list_insert_insert_eq.
Qed.

(** The device after a [set] inside the extents. *)
Lemma set_in_extent_eq (D : Derived) (dev : device T)
    (a : CudaSurface3DBase) (s : slot T) (x y z : Z) (v : T) :
  surfaces dev !! dev_array (surface a) = Some s →
  backs D dev a = true → row_fits a → in_extent a x y z →
  set D a dev x y z v
  = Some (update_array dev (dev_array (surface a))
            (with_texels (array s)
               (<[linear_index a x y z := v]> (texels (array s))))
            s).
Proof.
  intros Hs Hb Hfit Hin.
  apply backs_inv in Hb as (s0 & Hs0 & _ & Hw & Hh & Hd & Hl & _).
  assert (s0 = s) as -> by congruence.
  destruct (in_extent_in_range (array s) a x y z Hw Hh Hd Hfit Hin)
    as [Hr Hi].
  rewrite (set_in_range D dev a s) by done. now rewrite Hi.
Qed.

(** X8. Two [set]s inside the extents at different coordinates, through
    instances that hold the same handle, commute: either order leaves
    the same device. *)
Theorem writes_commute (D : Derived) (dev : device T)
    (a b : CudaSurface3DBase) (x1 y1 z1 x2 y2 z2 : Z) (v1 v2 : T) :
  surface b = surface a →
  backs D dev a = true → backs D dev b = true → row_fits a →
  in_extent a x1 y1 z1 → in_extent b x2 y2 z2 →
  (x1, y1, z1) ≠ (x2, y2, z2) →
  ∃ dev',
    (dev1 ← set D a dev x1 y1 z1 v1; set D b dev1 x2 y2 z2 v2) = Some dev'
    ∧ (dev2 ← set D b dev x2 y2 z2 v2; set D a dev2 x1 y1 z1 v1) = Some dev'.
Proof.
  intros Hsurf Ha Hb Hfit Hin1 Hin2 Hne.
  pose proof Ha as Hinva. pose proof Hb as Hinvb.
  apply backs_inv in Hinva as (s & Hs & _ & Hwa & Hha & Hda & _ & _).
  apply backs_inv in Hinvb as (s' & Hs' & _ & Hwb & Hhb & Hdb & _ & _).
  assert (s' = s) as -> by (rewrite Hsurf in Hs'; congruence).
  assert (row_fits b) as Hfitb
    by (unfold row_fits in *; now rewrite <- Hwb, Hwa).
  assert (linear_index b x2 y2 z2 ≠ linear_index a x1 y1 z1) as Hidx.
  { unfold linear_index. rewrite <- Hwb, <- Hhb, Hwa, Hha.
    destruct Hin1 as (Hx1 & Hy1 & Hz1), Hin2 as (Hx2 & Hy2 & Hz2).
    rewrite <- Hwb, Hwa in Hx2. rewrite <- Hhb, Hha in Hy2.
    rewrite <- Hdb, Hda in Hz2.
    pose proof (linear_index_bound _ _ _ _ _ _ Hx1 Hy1 Hz1).
    pose proof (linear_index_bound _ _ _ _ _ _ Hx2 Hy2 Hz2).
    intros Heq. apply Z2Nat.inj in Heq; [| lia | lia].
    destruct (linear_index_inj _ _ _ _ _ _ _ _ _ Hx2 Hy2 Hz2 Hx1 Hy1 Hz1 Heq)
      as (-> & -> & ->).
    by apply Hne. }
  rewrite (set_in_extent_eq D dev a s) by done.
  rewrite (set_in_extent_eq D dev b s) by done.
  simpl.
  set (l1 := <[linear_index a x1 y1 z1 := v1]> (texels (array s))).
  set (l2 := <[linear_index b x2 y2 z2 := v2]> (texels (array s))).
  rewrite (set_in_extent_eq D _ b
             (Slot (refcount s) (with_texels (array s) l1)));
    [| rewrite Hsurf; apply lookup_insert_eq
     | rewrite backs_update_array; [done | done | apply length_insert]
     | done | done].
  rewrite (set_in_extent_eq D _ a
             (Slot (refcount s) (with_texels (array s) l2)));
    [| rewrite Hsurf; apply lookup_insert_eq
     | rewrite backs_update_array; [done | done | apply length_insert]
     | done | done].
  rewrite Hsurf, !update_array_twice by done.
  eexists. split; [reflexivity |].
  unfold with_texels, l1, l2. simpl.
  now rewrite list_insert_insert_ne by done.
Qed.

(** X9. The [x] coordinate is taken modulo [2^32] bytes: two [x] whose
    byte offsets [sizeof(T) * x] differ by a multiple of [2^32] address
    the same element, for [get] and for [set]. *)
Theorem x_coordinates_alias (D : Derived) (dev : device T)
    (a : CudaSurface3DBase) (x x' y z : Z) (v : T) :
  (sizeof * (x' - x)) mod 2 ^ 32 = 0 →
  get D a dev x' y z = get D a dev x y z
  ∧ set D a dev x' y z v = set D a dev x y z v.
Proof.
  intros Hmod.
  assert (byte_offset x' = byte_offset x) as Hoff.
  { rewrite !byte_offset_to_int. unfold to_int. f_equal.
    apply Z.mod_divide in Hmod as [k Hk]; [| lia].
    replace (sizeof * x' + 2 ^ 31)
      with (sizeof * x + 2 ^ 31 + k * 2 ^ 32) by lia.
    apply Z_mod_plus_full. }
  rewrite !get_unfold, !set_unfold. now rewrite Hoff.
Qed.

(** A coordinate outside the extents is out of range for the intrinsic
    when [y] or [z] is outside, or when the byte offset of [x] is an
    [int]. *)
Lemma out_of_extent_out_of_range (arr : cudaArray T)
    (a : CudaSurface3DBase) (x y z : Z) :
  extent_w arr = width_ (Base a) →
  extent_h arr = height_ (Base a) →
  extent_d arr = depth_ (Base a) →
  ¬ in_extent a x y z →
  (y < 0 ∨ height_ (Base a) ≤ y ∨ z < 0 ∨ depth_ (Base a) ≤ z
   ∨ - 2 ^ 31 ≤ sizeof * x < 2 ^ 31) →
  in_range arr (byte_offset x) y z = false.
Proof.
  intros Hw Hh Hd Hout Hrep.
  unfold in_range. rewrite Hw, Hh, Hd.
  apply not_true_iff_false.
  rewrite !andb_true_iff, !Z.leb_le, !Z.ltb_lt.
  intros (((((Hx0 & Hx1) & Hy0) & Hy1) & Hz0) & Hz1).
  destruct Hrep as [? | [? | [? | [? | Hrep]]]]; try lia.
  rewrite byte_offset_exact in Hx0, Hx1 by done.
  pose proof sizeof_pos.
  apply Hout. unfold in_extent. nia.
Qed.

(** X10. Under [cudaBoundaryModeZero] a [set] outside the extents (with
    [y] or [z] outside, or the byte offset of [x] an [int]) is dropped:
    it succeeds and leaves the device exactly as it was. *)
Theorem zero_mode_write_dropped (D : Derived) (dev : device T)
    (a : CudaSurface3DBase) (x y z : Z) (v : T) :
  backs D dev a = true →
  boundary_mode_ a = cudaBoundaryModeZero →
  ¬ in_extent a x y z →
  (y < 0 ∨ height_ (Base a) ≤ y ∨ z < 0 ∨ depth_ (Base a) ≤ z
   ∨ - 2 ^ 31 ≤ sizeof * x < 2 ^ 31) →
  set D a dev x y z v = Some dev.
Proof.
  intros Hb Hm Hout Hrep.
  apply backs_inv in Hb as (s & Hs & _ & Hw & Hh & Hd & Hl & _).
  rewrite set_unfold, Hs, Hl, Bool.eqb_reflx, Hm. unfold surf_write.
  rewrite (out_of_extent_out_of_range (array s) a) by done. simpl.
  now rewrite update_array_same.
Qed.

(** X11. Under [cudaBoundaryModeTrap] both accessors fail outside the
    extents (same coordinates as above). *)
Theorem trap_mode_fails_out_of_extent (D : Derived) (dev : device T)
    (a : CudaSurface3DBase) (x y z : Z) (v : T) :
  backs D dev a = true →
  boundary_mode_ a = cudaBoundaryModeTrap →
  ¬ in_extent a x y z →
  (y < 0 ∨ height_ (Base a) ≤ y ∨ z < 0 ∨ depth_ (Base a) ≤ z
   ∨ - 2 ^ 31 ≤ sizeof * x < 2 ^ 31) →
  get D a dev x y z = None ∧ set D a dev x y z v = None.
Proof.
  intros Hb Hm Hout Hrep.
  apply backs_inv in Hb as (s & Hs & _ & Hw & Hh & Hd & Hl & _).
  rewrite get_unfold, set_unfold, Hs, Hl, Bool.eqb_reflx, Hm.
  unfold surf_read, surf_write.
  now rewrite (out_of_extent_out_of_range (array s) a).
Qed.

(** X12. The boundary mode acts per instance: of two instances on one
    allocation, the one in zero mode reads zero outside the extents
    where the one in trap mode fails. *)
Theorem boundary_mode_is_per_instance (D : Derived) (dev : device T)
    (a b : CudaSurface3DBase) (x y z : Z) :
  surface b = surface a →
  backs D dev a = true →
  boundary_mode_ a = cudaBoundaryModeZero →
  boundary_mode_ b = cudaBoundaryModeTrap →
  ¬ in_extent a x y z →
  (y < 0 ∨ height_ (Base a) ≤ y ∨ z < 0 ∨ depth_ (Base a) ≤ z
   ∨ - 2 ^ 31 ≤ sizeof * x < 2 ^ 31) →
  get D a dev x y z = Some zero ∧ get D b dev x y z = None.
Proof.
  intros Hsurf Hb Hma Hmb Hout Hrep.
  apply backs_inv in Hb as (s & Hs & _ & Hw & Hh & Hd & Hl & _).
  rewrite !get_unfold, Hsurf, Hs, Hl, Bool.eqb_reflx, Hma, Hmb.
  unfold surf_read.
  now rewrite (out_of_extent_out_of_range (array s) a).
Qed.

Lemma clamp_inside (lo hi v : Z) : lo ≤ v ≤ hi → clamp lo hi v = v.
Proof. unfold clamp. lia. Qed.

Lemma clamp_scaled (w x : Z) :
  0 < w →
  clamp 0 (sizeof * w - sizeof) (sizeof * x) = sizeof * clamp 0 (w - 1) x.
Proof.
  intros Hw. pose proof sizeof_pos as Hpos. unfold clamp.
  destruct (Z.min_spec (w - 1) x) as [[Hlt ->] | [Hle ->]].
  - rewrite Z.min_l by nia. rewrite !Z.max_r by nia. ring.
  - rewrite Z.min_r by nia.
    destruct (Z.max_spec 0 x) as [[H0 ->] | [H0 ->]].
    + apply Z.max_r. nia.
    + rewrite Z.max_l by nia. ring.
Qed.

(** X13. Under [cudaBoundaryModeClamp], on a backed instance with
    non-empty extents, [get(x, y, z)] with a byte offset of [x] that is
    an [int] reads the element at the coordinate clamped into the
    extents, inside and outside of them. *)
Theorem clamp_mode_reads_nearest (D : Derived) (dev : device T)
    (a : CudaSurface3DBase) (x y z : Z) :
  backs D dev a = true → row_fits a →
  boundary_mode_ a = cudaBoundaryModeClamp →
  0 < width_ (Base a) → 0 < height_ (Base a) → 0 < depth_ (Base a) →
  - 2 ^ 31 ≤ sizeof * x < 2 ^ 31 →
  get D a dev x y z
  = element dev a
      (linear_index a (clamp 0 (width_ (Base a) - 1) x)
                      (clamp 0 (height_ (Base a) - 1) y)
                      (clamp 0 (depth_ (Base a) - 1) z)).
Proof.
  intros Hb Hfit Hm Hw0 Hh0 Hd0 Hrep.
  pose proof sizeof_pos as Hpos.
  pose proof Hb as Hinv.
  apply backs_inv in Hinv as (s & Hs & _ & Hw & Hh & Hd & Hl & _).
  rewrite get_unfold, Hs, Hl, Bool.eqb_reflx, Hm. unfold element, surf_read.
  rewrite Hs. simpl.
  destruct (in_range (array s) (byte_offset x) y z) eqn:Hr.
  - unfold in_range in Hr. rewrite Hw, Hh, Hd in Hr.
    rewrite !andb_true_iff, !Z.leb_le, !Z.ltb_lt in Hr.
    rewrite byte_offset_exact in Hr by done.
    destruct Hr as (((((Hx0 & Hx1) & Hy0) & Hy1) & Hz0) & Hz1).
    assert (in_extent a x y z) as Hin by (unfold in_extent; nia).
    destruct Hin as (Hx & Hy & Hz).
    rewrite !clamp_inside by lia.
    destruct (in_extent_in_range (array s) a x y z Hw Hh Hd Hfit
                (conj Hx (conj Hy Hz))) as [_ ->].
    done.
  - unfold clamped_index, texel_index, linear_index.
    rewrite Hw, Hh, Hd, byte_offset_exact, clamp_scaled, scaled_div by done.
    done.
Qed.

Lemma backs_acquire (D : Derived) (dev : device T) (h : positive)
    (c : CudaSurface3DBase) :
  backs D dev c = true → backs D (acquire dev h) c = true.
Proof.
  intros Hb.
  apply backs_inv in Hb as (s & Hs & Hr & Hw & Hh & Hd & Hl & Hlen).
  destruct (decide (h = dev_array (surface c))) as [-> | Hne].
  - apply (backs_intro D _ c (Slot (S (refcount s)) (array s))); try done.
    + rewrite acquire_lookup, decide_True by done. now rewrite Hs.
    + simpl. lia.
  - apply (backs_intro D _ c s); try done.
    rewrite acquire_lookup, decide_False by done. done.
Qed.

(** X14. A copy-constructed instance whose boundary mode is then set to
    any mode still shares the array of its source: both are backed by
    the allocation, and a [set] inside the extents through either is
    read back by [get] through the other. *)
Theorem copy_shares_whatever_the_mode (D : Derived) (σ : heap T)
    (pa new : positive) (a : CudaSurface3DBase)
    (m : cudaSurfaceBoundaryMode) (x y z : Z) (v : T) :
  objects σ !! pa = Some a → objects σ !! new = None →
  backs D (gpu σ) a = true → row_fits a → in_extent a x y z →
  ∃ σ1 σ2 c,
    run_op (copy_construct new pa) σ = Some σ1
    ∧ set_boundary_mode new m σ1 = Some σ2
    ∧ objects σ2 !! pa = Some a ∧ objects σ2 !! new = Some c
    ∧ boundary_mode_ c = m ∧ surface c = surface a
    ∧ backs D (gpu σ2) a = true ∧ backs D (gpu σ2) c = true
    ∧ (∃ dev', set D c (gpu σ2) x y z v = Some dev'
               ∧ get D a dev' x y z = Some v)
    ∧ (∃ dev', set D a (gpu σ2) x y z v = Some dev'
               ∧ get D c dev' x y z = Some v).
Proof.
  intros Ha Hnew Hb Hfit Hin.
  assert (new ≠ pa) as Hne by congruence.
  set (c := SurfaceBase (Base a) (surface a) m).
  set (dev1 := acquire (gpu σ) (dev_array (surface a))).
  assert (backs D dev1 a = true) as Hb1 by now apply backs_acquire.
  assert (backs D dev1 c = true) as Hbc.
  { apply backs_inv in Hb1 as (s & Hs & Hr & Hw & Hh & Hd & Hl & Hlen).
    by apply (backs_intro D dev1 c s). }
  eexists. eexists. exists c.
  split; [simpl; rewrite Hnew, Ha; reflexivity |].
  split.
  { unfold set_boundary_mode. simpl. rewrite lookup_insert_eq. reflexivity. }
  simpl. rewrite insert_insert_eq.
  rewrite lookup_insert_ne, lookup_insert_eq by done.
  do 6 (split; [done |]). split.
  - destruct (shared_write_visible D dev1 a c x y z v eq_refl Hbc Hfit Hin)
      as (dev' & Hset & Hget & _).
    eauto.
  - destruct (shared_write_visible D dev1 c a x y z v eq_refl Hb1 Hfit Hin)
      as (dev' & Hset & Hget & _).
    eauto.
Qed.

(** X15. Each leaf class allocates the kind of array its accessors
    work on: on a successfully constructed instance a [set] inside the
    extents succeeds and is read back by [get], for both leaves. *)
Theorem constructed_instance_is_accessible (D : Derived) (dev dev' : device T)
    (width height depth : Z) (block_dim : dim3) (stream : cudaStream_t)
    (boundary_mode : cudaSurfaceBoundaryMode) (a : CudaSurface3DBase)
    (x y z : Z) (v : T) :
  CudaSurface3DBase_new D dev width height depth block_dim stream
    boundary_mode = inr (dev', a) →
  sizeof * width ≤ 2 ^ 31 →
  0 ≤ x < width → 0 ≤ y < height → 0 ≤ z < depth →
  ∃ dev'', set D a dev' x y z v = Some dev''
           ∧ get D a dev'' x y z = Some v.
Proof.
  intros Hnew Hrow Hx Hy Hz.
  pose proof (constructor_outcome D dev width height depth block_dim stream
                boundary_mode) as Hspec.
  rewrite Hnew in Hspec.
  destruct Hspec as (Hw & Hh & Hd & _ & _ & _ & _ & _ & _ & Hb & _).
  assert (row_fits a) as Hfit by (unfold row_fits; now rewrite Hw).
  assert (in_extent a x y z) as Hin
    by (unfold in_extent; now rewrite Hw, Hh, Hd).
  destruct (shared_write_visible D dev' a a x y z v eq_refl Hb Hfit Hin)
    as (dev'' & Hset & Hget & _).
  eauto.
Qed.

End AccessorLaws.

(** ** Further properties of the base class *)

Section BaseLaws.
Context {T : Type} `{Scalar T}.

(** X16. The byte count of the host transfers is computed in [size_t]:
    it is the byte size of the extents modulo [2^64], hence smaller than
    that size as soon as the size does not fit. *)
Theorem transfer_size_wraps (a : CudaSurface3DBase) :
  transfer_size a
  = (sizeof * (width_ (Base a) * height_ (Base a) * depth_ (Base a)))
    mod 2 ^ 64
  ∧ 0 ≤ transfer_size a < 2 ^ 64
  ∧ (2 ^ 64
     ≤ sizeof * (width_ (Base a) * height_ (Base a) * depth_ (Base a)) →
     transfer_size a
     < sizeof * (width_ (Base a) * height_ (Base a) * depth_ (Base a))).
Proof.
  rewrite transfer_size_mod.
  pose proof (Z.mod_pos_bound
                (sizeof * (width_ (Base a) * height_ (Base a)
                           * depth_ (Base a))) (2 ^ 64)).
  split; [done |]. split; lia.
Qed.

(** X17. Instance assignment overwrites the boundary mode of its
    target: a mode set on [b] before [b = a] is lost, [b] then has the
    mode of [a], and [a] keeps its own. *)
Theorem assignment_overwrites_boundary_mode (σ : heap T) (pa pb : positive)
    (a b : CudaSurface3DBase) (m : cudaSurfaceBoundaryMode) :
  objects σ !! pa = Some a → objects σ !! pb = Some b → pa ≠ pb →
  ∃ σ1 σ2,
    set_boundary_mode pb m σ = Some σ1
    ∧ assign pb pa σ1 = Some σ2
    ∧ get_boundary_mode pb σ1 = Some m
    ∧ get_boundary_mode pb σ2 = Some (boundary_mode_ a)
    ∧ get_boundary_mode pa σ2 = Some (boundary_mode_ a).
Proof.
  intros Ha Hb Hne.
  eexists. eexists.
  split; [unfold set_boundary_mode; rewrite Hb; reflexivity |].
  split.
  { rewrite (assign_distinct _ pb pa
               (SurfaceBase (Base b) (surface b) m) a); [reflexivity | ..].
    - congruence.
    - simpl. apply lookup_insert_eq.
    - simpl. rewrite lookup_insert_ne by congruence. done. }
  unfold get_boundary_mode. simpl.
  rewrite insert_insert_eq, !lookup_insert_eq.
  rewrite lookup_insert_ne, Ha by congruence. done.
Qed.

End BaseLaws.

(** ** The further properties at concrete inputs *)

Lemma upload_then_get_witness :
  ∃ dev',
    assign_host (cube cudaBoundaryModeZero) (gpu two_arrays)
      [0; 11; 12; 13; 14; 15; 16; 17; 18; 0] 1 = Some dev'
    ∧ get CudaSurface3D (cube cudaBoundaryModeTrap) dev' 1 0 1 = Some 16.
Proof.
  apply (upload_then_get CudaSurface3D (gpu two_arrays)
           (cube cudaBoundaryModeZero) (cube cudaBoundaryModeTrap)
           [0; 11; 12; 13; 14; 15; 16; 17; 18; 0] 1 1 0 1).
  - reflexivity.
  - unfold array_fits. simpl. lia.
  - unfold row_fits. simpl. lia.
  - reflexivity.
  - unfold element_count. simpl. lia.
  - unfold in_extent. simpl. lia.
Defined.

Lemma set_then_copyTo_witness :
  ∃ dev' host',
    set CudaSurface3D (cube cudaBoundaryModeZero) (gpu two_arrays) 1 0 1 42
    = Some dev'
    ∧ copyTo (cube cudaBoundaryModeZero) dev'
        [0; 0; 0; 0; 0; 0; 0; 0; 0; 0] 1 = Some host'
    ∧ host' !! 6%nat = Some 42
    ∧ (∀ i, (i < 8)%nat → i ≠ 5%nat →
            host' !! (1 + i)%nat
            = element (gpu two_arrays) (cube cudaBoundaryModeZero) i).
Proof.
  apply (set_then_copyTo CudaSurface3D (gpu two_arrays)
           (cube cudaBoundaryModeZero) [0; 0; 0; 0; 0; 0; 0; 0; 0; 0] 1
           1 0 1 42).
  - reflexivity.
  - unfold array_fits. simpl. lia.
  - unfold row_fits. simpl. lia.
  - unfold element_count. simpl. lia.
  - unfold in_extent. simpl. lia.
Defined.

Lemma upload_then_download_witness :
  ∃ dev' host',
    assign_host (cube cudaBoundaryModeZero) (gpu two_arrays)
      [11; 12; 13; 14; 15; 16; 17; 18; 0; 0; 0; 0; 0; 0; 0; 0; 0] 0
    = Some dev'
    ∧ copyTo (cube cudaBoundaryModeZero) dev'
        [11; 12; 13; 14; 15; 16; 17; 18; 0; 0; 0; 0; 0; 0; 0; 0; 0] 9
      = Some host'
    ∧ length host' = 17%nat
    ∧ (∀ i, (i < 8)%nat →
            host' !! (9 + i)%nat
            = [11; 12; 13; 14; 15; 16; 17; 18; 0; 0; 0; 0; 0; 0; 0; 0; 0]
              !! (0 + i)%nat)
    ∧ (∀ i, (i < 9)%nat ∨ (9 + 8 ≤ i)%nat →
            host' !! i
            = [11; 12; 13; 14; 15; 16; 17; 18; 0; 0; 0; 0; 0; 0; 0; 0; 0]
              !! i).
Proof.
  apply (upload_then_download CudaSurface3D (gpu two_arrays)
           (cube cudaBoundaryModeZero)
           [11; 12; 13; 14; 15; 16; 17; 18; 0; 0; 0; 0; 0; 0; 0; 0; 0] 0 9).
  - reflexivity.
  - unfold array_fits. simpl. lia.
  - unfold element_count. simpl. lia.
  - unfold element_count. simpl. lia.
Defined.

Lemma download_then_upload_witness :
  ∃ host',
    copyTo (cube cudaBoundaryModeZero) (gpu two_arrays)
      [0; 0; 0; 0; 0; 0; 0; 0; 0; 0] 1 = Some host'
    ∧ assign_host (cube cudaBoundaryModeZero) (gpu two_arrays) host' 1
      = Some (gpu two_arrays).
Proof.
  apply (download_then_upload CudaSurface3D (gpu two_arrays)
           (cube cudaBoundaryModeZero) [0; 0; 0; 0; 0; 0; 0; 0; 0; 0] 1).
  - reflexivity.
  - unfold array_fits. simpl. lia.
  - unfold element_count. simpl. lia.
Defined.

Lemma last_upload_wins_witness :
  ∃ dev1 dev2,
    assign_host (cube cudaBoundaryModeZero) (gpu two_arrays)
      [11; 12; 13; 14; 15; 16; 17; 18] 0 = Some dev1
    ∧ assign_host (cube cudaBoundaryModeZero) dev1
        [0; 21; 22; 23; 24; 25; 26; 27; 28] 1 = Some dev2
    ∧ assign_host (cube cudaBoundaryModeZero) (gpu two_arrays)
        [0; 21; 22; 23; 24; 25; 26; 27; 28] 1 = Some dev2.
Proof.
  apply (last_upload_wins CudaSurface3D (gpu two_arrays)
           (cube cudaBoundaryModeZero) [11; 12; 13; 14; 15; 16; 17; 18]
           [0; 21; 22; 23; 24; 25; 26; 27; 28] 0 1).
  - reflexivity.
  - unfold array_fits. simpl. lia.
  - unfold element_count. simpl. lia.
  - unfold element_count. simpl. lia.
Defined.

Lemma set_frame_witness :
  free_bytes (cube_device CudaSurface3D 1 [1; 2; 3; 4; 5; 42; 7; 8])
  = free_bytes (cube_device CudaSurface3D 1 [1; 2; 3; 4; 5; 6; 7; 8])
  ∧ (∀ h, h ≠ dev_array (surface (cube cudaBoundaryModeClamp)) →
          surfaces (cube_device CudaSurface3D 1 [1; 2; 3; 4; 5; 42; 7; 8])
            !! h
          = surfaces (cube_device CudaSurface3D 1 [1; 2; 3; 4; 5; 6; 7; 8])
              !! h)
  ∧ (∀ D' c,
       backs D' (cube_device CudaSurface3D 1 [1; 2; 3; 4; 5; 42; 7; 8]) c
       = backs D' (cube_device CudaSurface3D 1 [1; 2; 3; 4; 5; 6; 7; 8]) c)
  ∧ (∀ D' c x' y' z',
       dev_array (surface c)
       ≠ dev_array (surface (cube cudaBoundaryModeClamp)) →
       get D' c (cube_device CudaSurface3D 1 [1; 2; 3; 4; 5; 42; 7; 8])
         x' y' z'
       = get D' c (cube_device CudaSurface3D 1 [1; 2; 3; 4; 5; 6; 7; 8])
           x' y' z').
Proof.
  apply (set_frame CudaSurface3D
           (cube_device CudaSurface3D 1 [1; 2; 3; 4; 5; 6; 7; 8])
           (cube_device CudaSurface3D 1 [1; 2; 3; 4; 5; 42; 7; 8])
           (cube cudaBoundaryModeClamp) 7 0 1 42).
  reflexivity.
Defined.

Lemma writes_commute_witness :
  ∃ dev',
    (dev1 ← set CudaSurface3D (cube cudaBoundaryModeZero)
              (cube_device CudaSurface3D 2 [1; 2; 3; 4; 5; 6; 7; 8])
              0 0 0 41;
     set CudaSurface3D (cube cudaBoundaryModeTrap) dev1 1 1 1 42)
    = Some dev'
    ∧ (dev2 ← set CudaSurface3D (cube cudaBoundaryModeTrap)
                (cube_device CudaSurface3D 2 [1; 2; 3; 4; 5; 6; 7; 8])
                1 1 1 42;
       set CudaSurface3D (cube cudaBoundaryModeZero) dev2 0 0 0 41)
      = Some dev'.
Proof.
  apply (writes_commute CudaSurface3D
           (cube_device CudaSurface3D 2 [1; 2; 3; 4; 5; 6; 7; 8])
           (cube cudaBoundaryModeZero) (cube cudaBoundaryModeTrap)
           0 0 0 1 1 1 41 42).
  - reflexivity.
  - reflexivity.
  - reflexivity.
  - unfold row_fits. simpl. lia.
  - unfold in_extent. simpl. lia.
  - unfold in_extent. simpl. lia.
  - discriminate.
Defined.

Lemma x_coordinates_alias_witness :
  get CudaSurface3D (cube cudaBoundaryModeZero)
    (cube_device CudaSurface3D 1 [1; 2; 3; 4; 5; 6; 7; 8]) (2 ^ 30 + 1) 1 0
  = get CudaSurface3D (cube cudaBoundaryModeZero)
      (cube_device CudaSurface3D 1 [1; 2; 3; 4; 5; 6; 7; 8]) 1 1 0
  ∧ set CudaSurface3D (cube cudaBoundaryModeZero)
      (cube_device CudaSurface3D 1 [1; 2; 3; 4; 5; 6; 7; 8])
      (2 ^ 30 + 1) 1 0 42
    = set CudaSurface3D (cube cudaBoundaryModeZero)
        (cube_device CudaSurface3D 1 [1; 2; 3; 4; 5; 6; 7; 8]) 1 1 0 42.
Proof.
  apply (x_coordinates_alias CudaSurface3D
           (cube_device CudaSurface3D 1 [1; 2; 3; 4; 5; 6; 7; 8])
           (cube cudaBoundaryModeZero) 1 (2 ^ 30 + 1) 1 0 42).
  reflexivity.
Defined.

Lemma zero_mode_write_dropped_witness :
  set CudaSurface2DArray (cube cudaBoundaryModeZero)
    (cube_device CudaSurface2DArray 1 [1; 2; 3; 4; 5; 6; 7; 8]) 0 2 0 42
  = Some (cube_device CudaSurface2DArray 1 [1; 2; 3; 4; 5; 6; 7; 8]).
Proof.
  apply zero_mode_write_dropped.
  - reflexivity.
  - reflexivity.
  - unfold in_extent. simpl. lia.
  - right. left. simpl. lia.
Defined.

Lemma trap_mode_fails_out_of_extent_witness :
  get CudaSurface3D (cube cudaBoundaryModeTrap)
    (cube_device CudaSurface3D 1 [1; 2; 3; 4; 5; 6; 7; 8]) (-1) 0 0 = None
  ∧ set CudaSurface3D (cube cudaBoundaryModeTrap)
      (cube_device CudaSurface3D 1 [1; 2; 3; 4; 5; 6; 7; 8]) (-1) 0 0 42
    = None.
Proof.
  apply trap_mode_fails_out_of_extent.
  - reflexivity.
  - reflexivity.
  - unfold in_extent. simpl. lia.
  - do 4 right. simpl. lia.
Defined.

Lemma boundary_mode_is_per_instance_witness :
  get CudaSurface3D (cube cudaBoundaryModeZero)
    (gpu shared_array) 2 0 0 = Some zero
  ∧ get CudaSurface3D (cube cudaBoundaryModeTrap)
      (gpu shared_array) 2 0 0 = None.
Proof.
  apply boundary_mode_is_per_instance.
  - reflexivity.
  - reflexivity.
  - reflexivity.
  - reflexivity.
  - unfold in_extent. simpl. lia.
  - do 4 right. simpl. lia.
Defined.

Lemma clamp_mode_reads_nearest_witness :
  get CudaSurface3D (cube cudaBoundaryModeClamp)
    (cube_device CudaSurface3D 1 [1; 2; 3; 4; 5; 6; 7; 8]) 5 (-3) 1
  = element (cube_device CudaSurface3D 1 [1; 2; 3; 4; 5; 6; 7; 8])
      (cube cudaBoundaryModeClamp) 5.
Proof.
  apply (clamp_mode_reads_nearest CudaSurface3D
           (cube_device CudaSurface3D 1 [1; 2; 3; 4; 5; 6; 7; 8])
           (cube cudaBoundaryModeClamp) 5 (-3) 1).
  - reflexivity.
  - unfold row_fits. simpl. lia.
  - reflexivity.
  - simpl. lia.
  - simpl. lia.
  - simpl. lia.
  - simpl. lia.
Defined.

Lemma copy_shares_whatever_the_mode_witness :
  ∃ σ1 σ2 c,
    run_op (copy_construct 3 1) two_arrays = Some σ1
    ∧ set_boundary_mode 3 cudaBoundaryModeTrap σ1 = Some σ2
    ∧ objects σ2 !! 1%positive = Some (cube cudaBoundaryModeZero)
    ∧ objects σ2 !! 3%positive = Some c
    ∧ boundary_mode_ c = cudaBoundaryModeTrap
    ∧ surface c = surface (cube cudaBoundaryModeZero)
    ∧ backs CudaSurface3D (gpu σ2) (cube cudaBoundaryModeZero) = true
    ∧ backs CudaSurface3D (gpu σ2) c = true
    ∧ (∃ dev', set CudaSurface3D c (gpu σ2) 1 1 1 42 = Some dev'
               ∧ get CudaSurface3D (cube cudaBoundaryModeZero) dev' 1 1 1
                 = Some 42)
    ∧ (∃ dev', set CudaSurface3D (cube cudaBoundaryModeZero) (gpu σ2)
                 1 1 1 42 = Some dev'
               ∧ get CudaSurface3D c dev' 1 1 1 = Some 42).
Proof.
  apply (copy_shares_whatever_the_mode CudaSurface3D two_arrays 1 3
           (cube cudaBoundaryModeZero) cudaBoundaryModeTrap 1 1 1 42).
  - reflexivity.
  - reflexivity.
  - reflexivity.
  - unfold row_fits. simpl. lia.
  - unfold in_extent. simpl. lia.
Defined.

Lemma constructed_instance_is_accessible_witness :
  ∃ dev'',
    set CudaSurface2DArray (cube cudaBoundaryModeZero)
      (cube_device CudaSurface2DArray 1 [0; 0; 0; 0; 0; 0; 0; 0]) 1 1 1 42
    = Some dev''
    ∧ get CudaSurface2DArray (cube cudaBoundaryModeZero) dev'' 1 1 1
      = Some 42.
Proof.
  apply (constructed_instance_is_accessible CudaSurface2DArray empty_device
           (cube_device CudaSurface2DArray 1 [0; 0; 0; 0; 0; 0; 0; 0])
           2 2 2 (Dim3 8 8 1) 0 cudaBoundaryModeZero
           (cube cudaBoundaryModeZero) 1 1 1 42).
  - reflexivity.
  - simpl. lia.
  - lia.
  - lia.
  - lia.
Defined.

Lemma assignment_overwrites_boundary_mode_witness :
  ∃ σ1 σ2,
    set_boundary_mode 2 cudaBoundaryModeTrap two_arrays = Some σ1
    ∧ assign 2 1 σ1 = Some σ2
    ∧ get_boundary_mode 2 σ1 = Some cudaBoundaryModeTrap
    ∧ get_boundary_mode 2 σ2
      = Some (boundary_mode_ (cube cudaBoundaryModeZero))
    ∧ get_boundary_mode 1 σ2
      = Some (boundary_mode_ (cube cudaBoundaryModeZero)).
Proof.
  apply (assignment_overwrites_boundary_mode two_arrays 1 2
           (cube cudaBoundaryModeZero) dot cudaBoundaryModeTrap).
  - reflexivity.
  - reflexivity.
  - discriminate.
Defined.

(** ** Frames *)

Section Frames.
Context {T : Type} `{Scalar T}.

(** X18. [operator=(host_array)], on any instance and whether or not
    the runtime accepts the copy, changes nothing of the device but the
    elements of the array of its own instance: free memory, every other
    allocation and the well-formedness of every instance are as
    before. *)
Theorem assign_host_frame (dev dev' : device T) (a : CudaSurface3DBase)
    (host : list T) (p : nat) :
  assign_host a dev host p = Some dev' →
  free_bytes dev' = free_bytes dev
  ∧ (∀ h, h ≠ dev_array (surface a) →
          surfaces dev' !! h = surfaces dev !! h)
  ∧ (∀ D c, backs D dev' c = backs D dev c).
Proof.
  unfold assign_host, cudaMemcpyToArray.
  destruct (surfaces dev !! dev_array (surface a)) as [s |] eqn:Hs; simpl.
  - case_decide as Hfit; simpl.
    + case_decide as Hhost; simpl; [| done].
      intros [= <-]. split; [done |]. split.
      * intros h Hh. unfold update_array. simpl. now apply lookup_insert_ne.
      * intros D c. apply backs_update_array; [done |].
        apply splice_length. rewrite length_take, length_drop.
        simpl in Hfit |- *. lia.
    + intros [= <-]. done.
  - intros [= <-]. done.
Qed.

(** X19. Inside the extents the boundary mode plays no part: every
    instance that holds the handle of a backed instance reads and
    writes there exactly as that instance does, whatever its own
    boundary mode. *)
Theorem boundary_mode_irrelevant_in_extent (D : Derived) (dev : device T)
    (a b : CudaSurface3DBase) (x y z : Z) (v : T) :
  surface b = surface a →
  backs D dev a = true → row_fits a → in_extent a x y z →
  get D b dev x y z = get D a dev x y z
  ∧ set D b dev x y z v = set D a dev x y z v.
Proof.
  intros Hsurf Hb Hfit Hin.
  apply backs_inv in Hb as (s & Hs & _ & Hw & Hh & Hd & Hl & _).
  destruct (in_extent_in_range (array s) a x y z Hw Hh Hd Hfit Hin)
    as [Hr _].
  split.
  - rewrite (get_in_range D dev a s), (get_in_range D dev b s);
      rewrite ?Hsurf; done.
  - rewrite (set_in_range D dev a s), (set_in_range D dev b s);
      rewrite ?Hsurf; done.
Qed.

End Frames.

Lemma assign_host_frame_witness :
  ∃ dev',
    assign_host (cube cudaBoundaryModeZero) (gpu two_arrays)
      [11; 12; 13; 14; 15; 16; 17; 18] 0 = Some dev'
    ∧ free_bytes dev' = free_bytes (gpu two_arrays)
    ∧ (∀ h, h ≠ dev_array (surface (cube cudaBoundaryModeZero)) →
            surfaces dev' !! h = surfaces (gpu two_arrays) !! h)
    ∧ (∀ D c, backs D dev' c = backs D (gpu two_arrays) c).
Proof.
  eexists. split; [reflexivity |].
  apply (assign_host_frame (gpu two_arrays) _ (cube cudaBoundaryModeZero)
           [11; 12; 13; 14; 15; 16; 17; 18] 0).
  reflexivity.
Defined.

Lemma boundary_mode_irrelevant_in_extent_witness :
  get CudaSurface3D (cube cudaBoundaryModeTrap) (gpu shared_array) 1 1 0
  = get CudaSurface3D (cube cudaBoundaryModeZero) (gpu shared_array) 1 1 0
  ∧ set CudaSurface3D (cube cudaBoundaryModeTrap) (gpu shared_array)
      1 1 0 42
    = set CudaSurface3D (cube cudaBoundaryModeZero) (gpu shared_array)
        1 1 0 42.
Proof.
  apply boundary_mode_irrelevant_in_extent.
  - reflexivity.
  - reflexivity.
  - unfold row_fits. simpl. lia.
  - unfold in_extent. simpl. lia.
Defined.

(** ** The round trip through host memory, as written in a program *)

Section RoundTrip.
Context {T : Type} `{Scalar T}.


End RoundTrip.



(** The same round trip, run: the array of handle 2, which held
    [21 .. 28], holds the elements [1 .. 8] of handle 1 afterwards, and
    [b] reads through [get] what [a] reads. *)
Lemma host_round_trip_runs :
  copyTo (cube cudaBoundaryModeZero) two_cubes
    [0; 0; 0; 0; 0; 0; 0; 0; 0; 0] 1
  = Some [0; 1; 2; 3; 4; 5; 6; 7; 8; 0]
  ∧ assign_host_expression base_type (cube2 cudaBoundaryModeZero) two_cubes
      [0; 1; 2; 3; 4; 5; 6; 7; 8; 0] 1
    = Some (Some (Device 4032
                    {[ 1%positive :=
                         Slot 1 (CudaArray 2 2 2 false
                                   [1; 2; 3; 4; 5; 6; 7; 8]);
                       2%positive :=
                         Slot 1 (CudaArray 2 2 2 false
                                   [1; 2; 3; 4; 5; 6; 7; 8]) ]}))
  ∧ get CudaSurface3D (cube2 cudaBoundaryModeZero) two_cubes 1 0 1 = Some 26
  ∧ get CudaSurface3D (cube cudaBoundaryModeZero) two_cubes 1 0 1 = Some 6
  ∧ (dev' ← assign_host (cube2 cudaBoundaryModeZero) two_cubes
              [0; 1; 2; 3; 4; 5; 6; 7; 8; 0] 1;
     get CudaSurface3D (cube2 cudaBoundaryModeZero) dev' 1 0 1)
    = Some 6.
Proof. repeat split; reflexivity. Qed.

(** ** Holders stay on live allocations *)

Lemma holders_empty (h : positive) : holders ∅ h = 0%nat.
Proof. unfold holders. apply map_fold_empty. Qed.

Lemma holders_insert (objs : gmap positive CudaSurface3DBase)
    (p : positive) (c : CudaSurface3DBase) (h : positive) :
  objs !! p = None →
  holders (<[p := c]> objs) h
  = ((if decide (dev_array (surface c) = h) then 1 else 0)
     + holders objs h)%nat.
Proof.
  intros Hp. unfold holders. rewrite map_fold_insert_L; [| | done].
  - by case_decide.
  - intros. by repeat case_decide.
Qed.

Lemma holders_delete (objs : gmap positive CudaSurface3DBase)
    (p : positive) (t : CudaSurface3DBase) (h : positive) :
  objs !! p = Some t →
  holders objs h
  = ((if decide (dev_array (surface t) = h) then 1 else 0)
     + holders (delete p objs) h)%nat.
Proof.
  intros Hp. unfold holders.
  rewrite (map_fold_delete_L _ _ p t objs); [| | done].
  - by case_decide.
  - intros. by repeat case_decide.
Qed.

Lemma holders_replace (objs : gmap positive CudaSurface3DBase)
    (p : positive) (t c : CudaSurface3DBase) (h : positive) :
  objs !! p = Some t →
  (holders (<[p := c]> objs) h
   + (if decide (dev_array (surface t) = h) then 1 else 0)
   = holders objs h
     + (if decide (dev_array (surface c) = h) then 1 else 0))%nat.
Proof.
  intros Hp. rewrite <- insert_delete_eq.
  rewrite holders_insert by apply lookup_delete_eq.
  rewrite (holders_delete objs p t h Hp). lia.
Qed.

Lemma holders_pos (objs : gmap positive CudaSurface3DBase)
    (p : positive) (t : CudaSurface3DBase) :
  objs !! p = Some t → (0 < holders objs (dev_array (surface t)))%nat.
Proof.
  intros Hp. rewrite (holders_delete objs p t _ Hp).
  rewrite decide_True by done. lia.
Qed.

Section Liveness.
Context {T : Type} `{Scalar T}.

Lemma references_live (dev : device T) (h : positive) :
  (0 < references dev h)%nat →
  ∃ s, surfaces dev !! h = Some s ∧ refcount s = references dev h.
Proof.
  unfold references. destruct (surfaces dev !! h) as [s |]; simpl.
  - eauto.
  - lia.
Qed.

Lemma references_acquire (dev : device T) (ha h : positive) :
  (0 < references dev ha)%nat →
  references (acquire dev ha) h
  = (references dev h + (if decide (ha = h) then 1 else 0))%nat.
Proof.
  intros Hlive. apply references_live in Hlive as (s & Hs & _).
  unfold references. rewrite acquire_lookup.
  case_decide as Hh.
  - subst h. rewrite Hs. simpl. lia.
  - lia.
Qed.

Lemma references_release (dev : device T) (hb h : positive) :
  (0 < references dev hb)%nat →
  (references (release dev hb) h + (if decide (hb = h) then 1 else 0)
   = references dev h)%nat.
Proof.
  intros Hlive. pose proof Hlive as Hpos.
  apply references_live in Hlive as (s & Hs & Hr).
  case_decide as Hh.
  - subst h. rewrite <- Hr in Hpos |- *. unfold references at 1.
    unfold release. rewrite Hs.
    destruct (refcount s) as [| [| n]]; simpl.
    + lia.
    + now rewrite lookup_delete_eq.
    + rewrite lookup_insert_eq. simpl. lia.
  - unfold references. rewrite release_lookup_ne by done. lia.
Qed.

(** In a counted state every object holds the handle of a live
    allocation, counted once per holder. *)
Lemma counted_live (σ : heap T) (p : positive) (c : CudaSurface3DBase) :
  counted σ → objects σ !! p = Some c →
  ∃ s, surfaces (gpu σ) !! dev_array (surface c) = Some s
       ∧ refcount s = holders (objects σ) (dev_array (surface c))
       ∧ (0 < refcount s)%nat.
Proof.
  intros Hc Hp. pose proof (holders_pos _ _ _ Hp) as Hpos.
  rewrite Hc in Hpos |- *.
  destruct (references_live _ _ Hpos) as (s & Hs & Hr).
  exists s. split; [done |]. split; [done | lia].
Qed.

(** A shallow copy keeps the state counted. *)
Lemma run_op_counted (o : shallow_op) (σ σ' : heap T) :
  counted σ → run_op o σ = Some σ' → counted σ'.
Proof.
  intros Hc. destruct o as [new other | this other]; simpl.
  - destruct (objects σ !! new) eqn:Hnew; [done |].
    destruct (objects σ !! other) as [src |] eqn:Hsrc; [| done]. simpl.
    intros [= <-] h. simpl.
    rewrite holders_insert by done. simpl.
    rewrite references_acquire
      by (rewrite <- Hc; by eapply holders_pos).
    rewrite Hc. lia.
  - destruct (decide (this = other)) as [-> | Hne].
    + rewrite assign_same_address. by intros [= <-].
    + destruct (objects σ !! other) as [src |] eqn:Hsrc;
        [| unfold assign; rewrite decide_False, Hsrc by done; done].
      destruct (objects σ !! this) as [t |] eqn:Ht;
        [| unfold assign; rewrite decide_False, Hsrc, Ht by done; done].
      rewrite (assign_distinct σ this other t src) by done.
      intros [= <-] h. simpl.
      pose proof (holders_replace (objects σ) this t src h Ht) as Hrep.
      assert (0 < references (gpu σ) (dev_array (surface src)))%nat as Hsrc'
        by (rewrite <- Hc; by eapply holders_pos).
      assert (0 < references (gpu σ) (dev_array (surface t)))%nat as Ht'
        by (rewrite <- Hc; by eapply holders_pos).
      pose proof (references_acquire (gpu σ) (dev_array (surface src)) h
                    Hsrc') as Hacq.
      pose proof (references_release
                    (acquire (gpu σ) (dev_array (surface src)))
                    (dev_array (surface t)) h) as Hrel.
      rewrite (references_acquire (gpu σ) (dev_array (surface src))
                 (dev_array (surface t)) Hsrc') in Hrel.
      specialize (Hrel ltac:(lia)).
      rewrite (Hc h) in Hrep. lia.
Qed.

Lemma run_ops_counted (ops : list shallow_op) (σ σ' : heap T) :
  counted σ → run_ops ops σ = Some σ' → counted σ'.
Proof.
  revert σ. induction ops as [| o ops IH]; intros σ Hc; simpl.
  - by intros [= <-].
  - destruct (run_op o σ) as [σ1 |] eqn:Hstep; [| done]. simpl.
    apply IH. by eapply run_op_counted.
Qed.

(** A shallow copy makes no object that was not there. *)
Lemma run_op_objects_from (o : shallow_op) (σ σ' : heap T) :
  run_op o σ = Some σ' → objects_from σ σ'.
Proof.
  destruct o as [new other | this other]; simpl.
  - destruct (objects σ !! new) eqn:Hnew; [done |].
    destruct (objects σ !! other) as [src |] eqn:Hsrc; [| done]. simpl.
    intros [= <-] p c. simpl.
    destruct (decide (new = p)) as [<- | Hp].
    + rewrite lookup_insert_eq. intros [= <-].
      exists other. rewrite Hsrc. by destruct src.
    + rewrite lookup_insert_ne by done. eauto.
  - destruct (decide (this = other)) as [-> | Hne].
    + rewrite assign_same_address. intros [= <-] p c Hc. eauto.
    + destruct (objects σ !! other) as [src |] eqn:Hsrc;
        [| unfold assign; rewrite decide_False, Hsrc by done; done].
      destruct (objects σ !! this) as [t |] eqn:Ht;
        [| unfold assign; rewrite decide_False, Hsrc, Ht by done; done].
      rewrite (assign_distinct σ this other t src) by done.
      intros [= <-] p c. simpl.
      destruct (decide (this = p)) as [<- | Hp].
      * rewrite lookup_insert_eq. intros [= <-]. eauto.
      * rewrite lookup_insert_ne by done. eauto.
Qed.

Lemma run_ops_objects_from (ops : list shallow_op) (σ σ' : heap T) :
  run_ops ops σ = Some σ' → objects_from σ σ'.
Proof.
  revert σ. induction ops as [| o ops IH]; intros σ; simpl.
  - intros [= <-] p c Hc. eauto.
  - destruct (run_op o σ) as [σ1 |] eqn:Hstep; [| done]. simpl.
    intros Hrest p c Hc.
    destruct (IH σ1 Hrest p c Hc) as (q & Hq).
    by apply (run_op_objects_from o σ σ1 Hstep q c).
Qed.

(** C7. At every point of a sequence of copy constructions and
    instance assignments, the next shallow copy leaves its target with
    the handle of its source and changes no other object, the
    allocation of the source stays alive with its array, and from the
    start of the sequence on every allocation of the device is one that
    was there at the start, with the same array (no device memory is
    duplicated, no device data copied), and every object holds a handle
    that some object held at the start. When the sequence starts in a
    counted state, the state stays counted and every object holds, at
    every point, the handle of a live allocation, counted once per
    object that holds it, whose array is the array that allocation had
    at the start; instances that were backed stay backed. *)
Theorem shallow_copies_share_one_allocation (D : Derived)
    (ops : list shallow_op) (o : shallow_op) (σ σ1 σ' : heap T) :
  run_ops ops σ = Some σ1 → run_op o σ1 = Some σ' →
  (∀ s, objects σ1 !! source o = Some s →
        objects σ' !! source o = Some s
        ∧ ∃ c, objects σ' !! target o = Some c ∧ surface c = surface s)
  ∧ (∀ p, p ≠ target o → objects σ' !! p = objects σ1 !! p)
  ∧ (∀ s a, objects σ1 !! source o = Some s →
            surfaces (gpu σ1) !! dev_array (surface s) = Some a →
            (0 < refcount a)%nat →
            ∃ a', surfaces (gpu σ') !! dev_array (surface s) = Some a'
                  ∧ array a' = array a ∧ (0 < refcount a')%nat)
  ∧ no_new_arrays (gpu σ) (gpu σ')
  ∧ handles_from σ σ'
  ∧ (counted σ →
     counted σ'
     ∧ (∀ p c, objects σ' !! p = Some c →
               ∃ s' s,
                 surfaces (gpu σ') !! dev_array (surface c) = Some s'
                 ∧ refcount s' = holders (objects σ') (dev_array (surface c))
                 ∧ (0 < refcount s')%nat
                 ∧ surfaces (gpu σ) !! dev_array (surface c) = Some s
                 ∧ array s' = array s)
     ∧ ((∀ q c, objects σ !! q = Some c → backs D (gpu σ) c = true) →
        ∀ p c, objects σ' !! p = Some c → backs D (gpu σ') c = true)).
Proof.
  intros Hrun Hstep.
  destruct (shallow_copy_step o σ1 σ' Hstep)
    as (Hshare & Hframe & Harr & Hfrom & Halive).
  destruct (shallow_copies_invariant ops σ σ1 Hrun) as [Harr0 Hfrom0].
  assert (no_new_arrays (gpu σ) (gpu σ')) as Hnew
    by by eapply no_new_arrays_trans.
  split; [done |]. split; [done |]. split; [done |]. split; [done |].
  split; [by eapply handles_from_trans |].
  intros Hc.
  assert (counted σ') as Hc'.
  { eapply run_op_counted; [| done]. by eapply run_ops_counted. }
  assert (∀ p c, objects σ' !! p = Some c →
            ∃ s' s,
              surfaces (gpu σ') !! dev_array (surface c) = Some s'
              ∧ refcount s' = holders (objects σ') (dev_array (surface c))
              ∧ (0 < refcount s')%nat
              ∧ surfaces (gpu σ) !! dev_array (surface c) = Some s
              ∧ array s' = array s) as Hlive.
  { intros p c Hp.
    destruct (counted_live σ' p c Hc' Hp) as (s' & Hs' & Hr & Hpos).
    destruct (Hnew _ _ Hs') as (s & Hs & Heq).
    exists s', s. done. }
  split; [done |]. split; [done |].
  intros Hbacks p c Hp.
  destruct (Hlive p c Hp) as (s' & s & Hs' & _ & Hpos & Hs & Heq).
  destruct (run_op_objects_from o σ1 σ' Hstep p c Hp) as (q1 & Hq1).
  destruct (run_ops_objects_from ops σ σ1 Hrun q1 c Hq1) as (q & Hq).
  by apply (backs_same_array D (gpu σ) (gpu σ') c c s s'); eauto.
Qed.

End Liveness.

(** The state [two_arrays] is counted. *)
Lemma two_arrays_counted : counted two_arrays.
Proof.
  intros h. unfold two_arrays, references. cbn [objects gpu surfaces].
  rewrite <- !insert_empty.
  rewrite holders_insert by reflexivity.
  rewrite holders_insert by reflexivity.
  rewrite holders_empty.
  destruct (decide (h = 1%positive)) as [-> | H1]; [reflexivity |].
  destruct (decide (h = 2%positive)) as [-> | H2]; [reflexivity |].
  cbn [cube dot surface dev_array].
  rewrite !decide_False by done.
  rewrite lookup_insert_ne, lookup_insert_ne, lookup_empty by done.
  reflexivity.
Qed.

(** Every object of [two_arrays] is backed. *)
Lemma two_arrays_backed (q : positive) (c : CudaSurface3DBase) :
  objects two_arrays !! q = Some c →
  backs CudaSurface3D (gpu two_arrays) c = true.
Proof.
  unfold two_arrays. cbn [objects gpu]. rewrite <- !insert_empty.
  destruct (decide (q = 1%positive)) as [-> | H1].
  { rewrite lookup_insert_eq. by intros [= <-]. }
  rewrite lookup_insert_ne by done.
  destruct (decide (q = 2%positive)) as [-> | H2].
  { rewrite lookup_insert_eq. by intros [= <-]. }
  rewrite lookup_insert_ne, lookup_empty by done. done.
Qed.

Lemma shallow_copies_share_one_allocation_witness :
  ∃ σ1 σ',
    run_ops [copy_construct 3 1] two_arrays = Some σ1
    ∧ run_op (copy_assign 1 2) σ1 = Some σ'
    ∧ (∀ s, objects σ1 !! 2%positive = Some s →
            objects σ' !! 2%positive = Some s
            ∧ ∃ c, objects σ' !! 1%positive = Some c
                   ∧ surface c = surface s)
    ∧ (∀ p, p ≠ 1%positive → objects σ' !! p = objects σ1 !! p)
    ∧ no_new_arrays (gpu two_arrays) (gpu σ')
    ∧ handles_from two_arrays σ'
    ∧ counted σ'
    ∧ (∀ p c, objects σ' !! p = Some c →
              ∃ s' s,
                surfaces (gpu σ') !! dev_array (surface c) = Some s'
                ∧ refcount s' = holders (objects σ') (dev_array (surface c))
                ∧ (0 < refcount s')%nat
                ∧ surfaces (gpu two_arrays) !! dev_array (surface c) = Some s
                ∧ array s' = array s)
    ∧ (∀ p c, objects σ' !! p = Some c →
              backs CudaSurface3D (gpu σ') c = true).
Proof.
  eexists. eexists.
  split; [reflexivity |]. split; [reflexivity |].
  destruct (shallow_copies_share_one_allocation CudaSurface3D
              [copy_construct 3 1] (copy_assign 1 2) two_arrays _ _
              eq_refl eq_refl)
    as (Hshare & Hframe & _ & Hnew & Hfrom & Hcounted).
  destruct (Hcounted two_arrays_counted) as (Hc & Hlive & Hbacks).
  split; [exact Hshare |]. split; [exact Hframe |].
  split; [exact Hnew |]. split; [exact Hfrom |].
  split; [exact Hc |]. split; [exact Hlive |].
  exact (Hbacks two_arrays_backed).
Defined.

(** That sequence, run: after [S3 c(a); a = b;] the copy at address 3
    is the one holder left of allocation 1, which is alive with its
    array and counted once; objects 1 and 2 share allocation 2, counted
    twice. *)
Lemma copy_outlives_reassigned_source :
  (σ1 ← run_ops [copy_construct 3 1] two_arrays;
   run_op (copy_assign 1 2) σ1)
  = Some (Heap {[ 1%positive := dot; 2%positive := dot;
                  3%positive := cube cudaBoundaryModeZero ]}
               (Device 4060
                  {[ 1%positive :=
                       Slot 1 (CudaArray 2 2 2 false
                                 [1; 2; 3; 4; 5; 6; 7; 8]);
                     2%positive := Slot 2 (CudaArray 1 1 1 false [9]) ]})).
Proof. reflexivity. Qed.

End cua.
